(** * Cross-backend equivalence scripts of iree-samples

    A shallow embedding of the two Python scripts of the repository,

    - [tflitehub/mobilenet_v3_test.py]  (module [MobilenetV3Test], and
      module [MobilenetV3] for one-dimensional exact arrays) and
    - [iree-torch/torchscript_resnet18_e2e.py]  (module [Resnet18]),

    and the properties of the equivalence harness they implement.

    Python code that only sequences calls into external libraries is
    embedded as a finite tree of library calls ([Prog]): every call the
    source makes into a library (torch, torchvision, PIL, requests,
    torch-mlir, the IREE compiler and runtime, the unittest base class)
    is a node [Call op k] carrying the operation with its arguments;
    the library's answer is supplied by a handler when the tree is run.
    The arrays that [compare_results] compares are embedded twice: in
    module [NDArray] with their shapes and over the arithmetic of their
    dtype (binary64 among them), with numpy's broadcasting, and in module
    [numpy] as one-dimensional arrays of exact rationals, which is the
    former restricted to such arrays.  The scores of the torch script are
    exact rationals ([Q]). *)

From Stdlib Require Import List String Ascii ZArith QArith Qabs Qminmax Lia Bool PeanoNat.
From Stdlib Require Import Sorted Permutation.
From Stdlib Require Floats Uint63.
Import ListNotations.
Local Open Scope string_scope.
Local Open Scope list_scope.

Set Implicit Arguments.

(** ** Exceptions and results *)

(** A Python exception: its class name and its message. *)
Record Exn : Type := mkExn { exn_class : string; exn_msg : string }.

Inductive result (A : Type) : Type :=
| Ok (a : A)
| Raised (e : Exn).
Arguments Ok {A} a.
Arguments Raised {A} e.

Definition IndexError (msg : string) : Exn := mkExn "IndexError" msg.
Definition ValueError (msg : string) : Exn := mkExn "ValueError" msg.
Definition AssertionError (msg : string) : Exn := mkExn "AssertionError" msg.

Definition is_ok {A : Type} (r : result A) : bool :=
  match r with Ok _ => true | Raised _ => false end.

(** ** Programs over a signature of library calls *)

(** The calls a program may make, and the type of the answer of each. *)
Record Signature : Type := { Op : Type; Resp : Op -> Type }.

Inductive Prog (S : Signature) (A : Type) : Type :=
| Ret (a : A)
| Throw (e : Exn)
| Call (op : Op S) (k : Resp S op -> Prog S A).
Arguments Ret {S A} a.
Arguments Throw {S A} e.
Arguments Call {S A} op k.

Fixpoint bind {S : Signature} {A B : Type}
    (m : Prog S A) (f : A -> Prog S B) : Prog S B :=
  match m with
  | Ret a => f a
  | Throw e => Throw e
  | Call op k => Call op (fun r => bind (k r) f)
  end.

Declare Scope prog_scope.
Delimit Scope prog_scope with prog.
Notation "x <- m ;; k" := (bind m (fun x => k))
  (at level 61, m at next level, right associativity) : prog_scope.
Notation "m ;; k" := (bind m (fun _ => k))
  (at level 61, right associativity) : prog_scope.
Local Open Scope prog_scope.

(** A library call whose answer is returned as it is. *)
Definition call {S : Signature} (op : Op S) : Prog S (Resp S op) :=
  Call op (fun r => Ret r).

(** A pure computation that may raise. *)
Definition lift {S : Signature} {A : Type} (r : result A) : Prog S A :=
  match r with Ok a => Ret a | Raised e => Throw e end.

(** The body of a list comprehension [[f x for x in l]]: [f] is run on the
    elements from left to right and the first exception ends the loop. *)
Fixpoint mapM {S : Signature} {A B : Type}
    (f : A -> Prog S B) (l : list A) : Prog S (list B) :=
  match l with
  | [] => Ret []
  | x :: l' => y <- f x ;; ys <- mapM f l' ;; Ret (y :: ys)
  end.

(** ** Running a program *)

(** The libraries: each call is answered from the state [Env] of the world
    outside the script (network, file system, runtime objects), which the
    call may change; an answer is a value or an exception. *)
Definition Handler (S : Signature) (Env : Type) : Type :=
  forall op : Op S, Env -> result (Resp S op) * Env.

(** One library call of a run, with its answer. *)
Record Entry (S : Signature) : Type :=
  mkEntry { entry_op : Op S; entry_answer : result (Resp S entry_op) }.
Arguments mkEntry {S} entry_op entry_answer.
Arguments entry_op {S} e.
Arguments entry_answer {S} e.

Record Run (S : Signature) (Env A : Type) : Type :=
  mkRun { outcome : result A; trace : list (Entry S); final : Env }.
Arguments mkRun {S Env A} outcome trace final.
Arguments outcome {S Env A} r.
Arguments trace {S Env A} r.
Arguments final {S Env A} r.

(** No exception is caught anywhere in the sources: an exception of a
    library call ends the run. *)
Fixpoint run {S : Signature} {Env A : Type}
    (h : Handler S Env) (m : Prog S A) (e : Env) : Run S Env A :=
  match m with
  | Ret a => mkRun (Ok a) [] e
  | Throw x => mkRun (Raised x) [] e
  | Call op k =>
      match h op e with
      | (Ok v, e') =>
          let r := run h (k v) e' in
          mkRun (outcome r) (mkEntry op (Ok v) :: trace r) (final r)
      | (Raised x, e') => mkRun (Raised x) [mkEntry op (Raised x)] e'
      end
  end.

(** The operations called in a run, in order. *)
Definition ops {S : Signature} (t : list (Entry S)) : list (Op S) :=
  map entry_op t.

(** What a run shows to an observer: how it ended and the calls it made. *)
Definition verdict {S : Signature} {Env A : Type} (r : Run S Env A)
    : result A * list (Entry S) :=
  (outcome r, trace r).

(** The libraries raise nothing. *)
Definition never_fails {S : Signature} {Env : Type} (h : Handler S Env) : Prop :=
  forall (op : Op S) (e : Env), is_ok (fst (h op e)) = true.

(** ** Python sequences *)

(** [l[i]] for a list or a tuple and [i >= 0]. *)
Definition getitem {A : Type} (l : list A) (i : nat) : result A :=
  match nth_error l i with
  | Some x => Ok x
  | None => Raised (IndexError "list index out of range")
  end.

(** ** numpy *)

Module numpy.

Local Open Scope Q_scope.

(** A one-dimensional array of finite values, in exact arithmetic: numpy
    restricted to such arrays, where broadcasting is the rule for one
    dimension.  Arrays of any shape over the arithmetic of a dtype are in
    module [NDArray], which agrees with this module on one-dimensional
    exact arrays ([isclose_one_dimensional] below). *)
Definition ndarray : Type := list Q.

(** The pairs of elements an elementwise binary operation works on. *)
Definition broadcast (a b : ndarray) : result (list (Q * Q)) :=
  if (List.length a =? List.length b)%nat then Ok (combine a b)
  else if (List.length a =? 1)%nat
       then Ok (combine (repeat (hd 0 a) (List.length b)) b)
  else if (List.length b =? 1)%nat
       then Ok (combine a (repeat (hd 0 b) (List.length a)))
  else Raised (ValueError "operands could not be broadcast together").

Definition default_rtol : Q := 1e-5.
Definition default_atol : Q := 1e-8.

(** [absolute(a - b) <= (atol + rtol * absolute(b))] *)
Definition isclose1 (rtol atol : Q) (p : Q * Q) : bool :=
  Qle_bool (Qabs (fst p - snd p)) (atol + rtol * Qabs (snd p)).

(** [numpy.isclose(a, b, rtol=1e-05, atol=1e-08)] on finite values. *)
Definition isclose (a b : ndarray) (rtol atol : Q) : result (list bool) :=
  match broadcast a b with
  | Ok ps => Ok (map (isclose1 rtol atol) ps)
  | Raised e => Raised e
  end.

(** [m.all()] *)
Definition all (m : list bool) : bool := forallb (fun b => b) m.

End numpy.

(** ** unittest *)

(** [self.assertTrue(expr)] without a message. *)
Definition assertTrue {S : Signature} (expr : bool) : Prog S unit :=
  if expr then Ret tt else Throw (AssertionError "False is not true").

(** ** numpy, on arrays of any shape and dtype *)

Module NDArray.

(** The arithmetic of a floating-point dtype, as numpy's elementwise
    functions use it: every operation rounds as the dtype does, the
    comparisons are false on NaN, and [of_decimal] is the value of the
    dtype that a Python float literal becomes. *)
Class Dtype (F : Type) : Type := {
  subtract : F -> F -> F;
  add : F -> F -> F;
  multiply : F -> F -> F;
  absolute : F -> F;
  less_equal : F -> F -> bool;
  equal : F -> F -> bool;
  isfinite : F -> bool;
  of_decimal : Q -> F
}.

(** An array: its shape and its elements in row-major order. *)
Record t (F : Type) : Type := mk { shape : list nat; data : list F }.
Arguments mk {F} shape data.
Arguments shape {F} t.
Arguments data {F} t.

(** The number of elements of an array of shape [s]. *)
Definition size (s : list nat) : nat := fold_right Nat.mul 1%nat s.

(** An array has as many elements as its shape says. *)
Definition wf {F : Type} (a : t F) : Prop :=
  List.length (data a) = size (shape a).

(** Broadcasting of two shapes, read from the last dimension: two
    dimensions go together when they are equal or one of them is one; a
    missing dimension counts as one. *)
Fixpoint broadcast_dims (s t : list nat) : option (list nat) :=
  match s, t with
  | [], _ => Some t
  | _, [] => Some s
  | m :: s', n :: t' =>
      match broadcast_dims s' t' with
      | None => None
      | Some r =>
          if (m =? n)%nat then Some (m :: r)
          else if (m =? 1)%nat then Some (n :: r)
          else if (n =? 1)%nat then Some (m :: r)
          else None
      end
  end.

Definition broadcast_shapes (s t : list nat) : option (list nat) :=
  option_map (@rev nat) (broadcast_dims (rev s) (rev t)).

(** [d] cut in [n] pieces of [k] elements. *)
Fixpoint chunks {A : Type} (n k : nat) (d : list A) : list (list A) :=
  match n with
  | O => []
  | S n' => firstn k d :: chunks n' k (skipn k d)
  end.

(** The elements of an array of shape [t] stretched to the shape [s] of
    the same rank: along a dimension of size one the elements are
    repeated. *)
Fixpoint expand {A : Type} (t s : list nat) (d : list A) : list A :=
  match t, s with
  | m :: t', n :: s' =>
      if (m =? n)%nat
      then List.concat (map (expand t' s') (chunks m (size t') d))
      else List.concat (repeat (expand t' s' d) n)
  | _, _ => d
  end.

(** A shape with dimensions of size one put in front, up to rank [n]. *)
Definition pad (t : list nat) (n : nat) : list nat :=
  repeat 1%nat (n - List.length t) ++ t.

(** [numpy.broadcast_to(a, s)], the elements. *)
Definition broadcast_to {F : Type} (a : t F) (s : list nat) : list F :=
  expand (pad (shape a) (List.length s)) s (data a).

(** The pairs of elements an elementwise binary operation works on. *)
Definition broadcast {F : Type} (a b : t F) : result (list (F * F)) :=
  match broadcast_shapes (shape a) (shape b) with
  | Some s => Ok (combine (broadcast_to a s) (broadcast_to b s))
  | None => Raised (ValueError "operands could not be broadcast together")
  end.

Section Elementwise.

Context {F : Type} {D : Dtype F}.

(** One element of [numpy.isclose]: for two finite values
    [absolute(x - y) <= atol + rtol * absolute(y)], otherwise [x == y]
    ([equal_nan] is [False]). *)
Definition isclose1 (rtol atol : F) (p : F * F) : bool :=
  if isfinite (fst p) && isfinite (snd p)
  then less_equal (absolute (subtract (fst p) (snd p)))
                  (add atol (multiply rtol (absolute (snd p))))
  else equal (fst p) (snd p).

(** [numpy.isclose(a, b, rtol, atol)], the elements of the result. *)
Definition isclose (a b : t F) (rtol atol : F) : result (list bool) :=
  match broadcast a b with
  | Ok ps => Ok (map (isclose1 rtol atol) ps)
  | Raised e => Raised e
  end.

(** [numpy.array(l)] for a list of Python float literals. *)
Definition array (l : list Q) : t F :=
  mk [List.length l] (map of_decimal l).

End Elementwise.

(** [m.all()] *)
Definition all (m : list bool) : bool := forallb (fun b => b) m.

(** Exact arithmetic: every value is finite and nothing is rounded. *)
Definition exact : Dtype Q :=
  {| subtract := Qminus; add := Qplus; multiply := Qmult; absolute := Qabs;
     less_equal := Qle_bool; equal := Qeq_bool;
     isfinite := fun _ => true; of_decimal := fun q => q |}.

Definition float_of_Z (z : Z) : PrimFloat.float :=
  match z with
  | Z0 => PrimFloat.zero
  | Zpos _ => PrimFloat.of_uint63 (Uint63.of_Z z)
  | Zneg p => PrimFloat.opp (PrimFloat.of_uint63 (Uint63.of_Z (Zpos p)))
  end.

(** IEEE 754 double precision, the dtype [float64].  A decimal literal
    is the quotient of two integers, which the division rounds to the
    nearest double (for integers below [2^53], as in the literals
    used here). *)
Definition binary64 : Dtype PrimFloat.float :=
  {| subtract := PrimFloat.sub; add := PrimFloat.add;
     multiply := PrimFloat.mul; absolute := PrimFloat.abs;
     less_equal := PrimFloat.leb; equal := PrimFloat.eqb;
     isfinite := fun x =>
       match PrimFloat.classify x with
       | FloatClass.NaN | FloatClass.PInf | FloatClass.NInf => false
       | _ => true
       end;
     of_decimal := fun q =>
       PrimFloat.div (float_of_Z (Qnum q)) (float_of_Z (Zpos (Qden q))) |}.

End NDArray.

(** ** tflitehub/mobilenet_v3_test.py *)

(** [class MobilenetV3Test], on result arrays of any shape, over the
    arithmetic of their dtype. *)
Module MobilenetV3Test.

Section Test.

(** The base class [test_util.TFLiteModelTest] lives in [test_util.py],
    outside the two scripts embedded here; its two methods used by the
    test are parameters, which may call any library ([S] is arbitrary). *)
Context {S : Signature} {F : Type} {D : NDArray.Dtype F}.
Variable Details : Type.

(** The result lists handed to [compare_results]: one array per output
    of the model. *)
Definition Results : Type := list (NDArray.t F).

Variable super_compare_results : Results -> Results -> Details -> Prog S unit.
Variable super_compile_and_execute :
  (Results -> Results -> Details -> Prog S unit) -> Prog S unit.

(** The assertion of [compare_results], with its literal [1e-4] as the
    parameter [atol]; [rtol] is not given and has its default [1e-5]:
    [self.assertTrue(numpy.isclose(iree_results[0], tflite_results[0],
                                   atol=atol).all())] *)
Definition assert_isclose (atol : F) (iree_results tflite_results : Results)
    : Prog S unit :=
  a <- lift (getitem iree_results 0) ;;
  b <- lift (getitem tflite_results 0) ;;
  m <- lift (NDArray.isclose a b (NDArray.of_decimal 1e-5) atol) ;;
  assertTrue (NDArray.all m).

(** [MobilenetV3Test.compare_results] *)
Definition compare_results
    (iree_results tflite_results : Results) (details : Details) : Prog S unit :=
  super_compare_results iree_results tflite_results details ;;
  assert_isclose (NDArray.of_decimal 1e-4) iree_results tflite_results.

(** [MobilenetV3Test.test_compile_tflite] *)
Definition test_compile_tflite : Prog S unit :=
  super_compile_and_execute compare_results.

End Test.

End MobilenetV3Test.

(** The same test on one-dimensional arrays in exact arithmetic. *)
Module MobilenetV3.

Definition model_path : string :=
  "https://tfhub.dev/bohemian-visual-recognition-alliance/lite-model/models/mushroom-identification_v1/1?lite-format=tflite".

(** The result lists handed to [compare_results]: one array per output
    of the model. *)
Definition Results : Type := list numpy.ndarray.

Section Test.

(** The base class [test_util.TFLiteModelTest] lives in [test_util.py],
    outside the two scripts embedded here; its two methods used by the
    test are parameters.  They may call any library ([S] is arbitrary),
    and [compile_and_execute], which is run on a [MobilenetV3Test]
    instance, may call the [compare_results] of that instance. *)
Context {S : Signature}.
Variable Details : Type.
Variable super_compare_results : Results -> Results -> Details -> Prog S unit.
Variable super_compile_and_execute :
  (Results -> Results -> Details -> Prog S unit) -> Prog S unit.

(** The assertion of [compare_results], with its literal [1e-4] as
    the parameter [atol]:
    [self.assertTrue(numpy.isclose(iree_results[0], tflite_results[0],
                                   atol=atol).all())] *)
Definition assert_isclose (atol : Q) (iree_results tflite_results : Results)
    : Prog S unit :=
  a <- lift (getitem iree_results 0) ;;
  b <- lift (getitem tflite_results 0) ;;
  m <- lift (numpy.isclose a b numpy.default_rtol atol) ;;
  assertTrue (numpy.all m).

Definition compare_results_atol (atol : Q)
    (iree_results tflite_results : Results) (details : Details) : Prog S unit :=
  super_compare_results iree_results tflite_results details ;;
  assert_isclose atol iree_results tflite_results.

(** [MobilenetV3Test.compare_results] *)
Definition compare_results : Results -> Results -> Details -> Prog S unit :=
  compare_results_atol 1e-4.

(** [MobilenetV3Test.test_compile_tflite] *)
Definition test_compile_tflite : Prog S unit :=
  super_compile_and_execute compare_results.

End Test.

End MobilenetV3.

(** ** iree-torch/torchscript_resnet18_e2e.py *)

Module Resnet18.

(** A reference to an object that lives in a library (an HTTP response,
    a PIL image, a torch module, an MLIR module, a compiled flatbuffer,
    a runtime context, ...). *)
Definition handle : Type := nat.

(** The input sample: a tensor with its shape and its elements. *)
Record Tensor : Type := mkTensor { shape : list nat; data : list Q }.

(** The output of a classifier: one row of scores per image. *)
Definition Logits : Type := list (list Q).

Inductive Transform : Type :=
| Resize (size : nat)
| CenterCrop (size : nat)
| ToTensor
| Normalize (mean std : list Q).

Inductive Stream : Type := stdout | stderr.

Inductive Printed : Type :=
| PStr (s : string)
| PTop3 (l : list (string * Q)).

(** [class ResNet18Module] and [class TestModule]: the attributes their
    [__init__] sets. *)
Record ResNet18Module : Type := { resnet : handle }.
Record TestModule : Type := { s : ResNet18Module }.

(** The library calls of the script, each with its arguments.  A call
    that takes an object of a library takes its handle; a method or an
    attribute of such an object is a call on the handle ([mb_module] is
    [mb.module], [ctx_modules_module] is [ctx.modules.module],
    [module_getitem] is [module[function_name]]). *)
Inductive op : Type :=
| ModuleBuilder_new
| print (file : Stream) (v : Printed)
| requests_get (url : string) (headers : list (string * string)) (stream : bool)
| Image_open (response : handle)
| Image_convert (img : handle) (mode : string)
| Compose_call (transforms : list Transform) (img : handle)
| response_text (response : handle)
| str_splitlines (text : string)
| str_strip (line : string)
| models_resnet18 (pretrained : bool)
| Module_train (resnet : handle) (mode : bool)
| resnet_forward (resnet : handle) (img : Tensor)
| torch_softmax (res : Logits) (dim : nat)
| ClassAnnotator_new
| torch_jit_script (m : TestModule)
| torch_jit_save (script : handle) (path : string)
| exportNone (annotator script : handle)
| exportPath (annotator script : handle) (path : list string)
| annotateArgs (annotator script : handle) (path : list string)
    (annotations : list (option (list Z * string * bool)))
| import_module (mb script annotator : handle)
| mb_module (mb : handle)
| PassManager_parse (context_of : handle) (pipeline : string)
| PassManager_run (pm module : handle)
| module_body_str (module : handle)
| file_write (path content : string)
| module_str (module : handle)
| compile_str (source : string) (target_backends : list string)
| VmModule_from_flatbuffer (flatbuffer : handle)
| Config_new (driver_name : string)
| SystemContext_new (config : handle)
| add_vm_module (ctx vm_module : handle)
| ctx_modules_module (ctx : handle)
| module_getitem (module : handle) (function_name : string)
| function_call (function : handle) (args : list Tensor).

Definition resp (o : op) : Type :=
  match o with
  | print _ _ | Module_train _ _ | torch_jit_save _ _ | exportNone _ _
  | exportPath _ _ _ | annotateArgs _ _ _ _ | import_module _ _ _
  | PassManager_run _ _ | file_write _ _ | add_vm_module _ _ => unit
  | Compose_call _ _ => Tensor
  | response_text _ | str_strip _ | module_body_str _ | module_str _ => string
  | str_splitlines _ => list string
  | resnet_forward _ _ | torch_softmax _ _ | function_call _ _ => Logits
  | _ => handle
  end.

Definition Sig : Signature := {| Op := op; Resp := resp |}.

Definition P (A : Type) : Type := Prog Sig A.

Definition ext (o : op) : P (resp o) := @call Sig o.

Local Open Scope Q_scope.

(** [torch.unsqueeze(t, dim)]: a dimension of size one is inserted, the
    elements stay as they are. *)
Definition unsqueeze (t : Tensor) (dim : nat) : Tensor :=
  mkTensor (firstn dim (shape t) ++ 1%nat :: skipn dim (shape t)) (data t).

Definition headers : list (string * string) :=
  [("User-Agent",
    "Mozilla/5.0 (Macintosh; Intel Mac OS X 10_11_5) AppleWebKit/537.36 (KHTML, like Gecko) Chrome/50.0.2661.102 Safari/537.36")].

Definition load_and_preprocess_image (url : string) : P Tensor :=
  response <- ext (requests_get url headers true) ;;
  img <- ext (Image_open response) ;;
  img <- ext (Image_convert img "RGB") ;;
  let preprocess :=
    [Resize 256; CenterCrop 224; ToTensor;
     Normalize [0.485; 0.456; 0.406] [0.229; 0.224; 0.225]] in
  img_preprocessed <- ext (Compose_call preprocess img) ;;
  Ret (unsqueeze img_preprocessed 0).

Definition load_labels : P (list string) :=
  response <- ext (requests_get
    "https://raw.githubusercontent.com/cathyzhyi/ml-data/main/imagenet-classes.txt"
    [] true) ;;
  classes_text <- ext (response_text response) ;;
  lines <- ext (str_splitlines classes_text) ;;
  mapM (fun line => ext (str_strip line)) lines.

(** [torch.sort(res, descending=True)], the indices: every row is sorted
    on its own (the last dimension).  Among equal scores torch fixes no
    order; here the smaller index comes first. *)
Fixpoint insert_desc (x : nat * Q) (l : list (nat * Q)) : list (nat * Q) :=
  match l with
  | [] => [x]
  | y :: l' =>
      if Qle_bool (snd y) (snd x) then x :: y :: l' else y :: insert_desc x l'
  end.

Definition argsort_desc (row : list Q) : list nat :=
  map fst (fold_right insert_desc [] (combine (seq 0 (List.length row)) row)).

Definition sort_indexes (res : Logits) : list (list nat) :=
  map argsort_desc res.

(** [top3_possibilities]; [labels] is the global of the script. *)
Definition top3_possibilities (labels : list string) (res : Logits)
    : P (list (string * Q)) :=
  let indexes := sort_indexes res in
  sm <- ext (torch_softmax res 1) ;;
  row <- lift (getitem sm 0) ;;
  let percentage := map (fun p => p * 100) row in
  first <- lift (getitem indexes 0) ;;
  mapM (fun idx =>
          label <- lift (getitem labels idx) ;;
          pct <- lift (getitem percentage idx) ;;
          Ret (label, pct))
       (firstn 3 first).

(** [img.numpy()] and [torch.from_numpy]: views on the same memory. *)
Definition Tensor_numpy (t : Tensor) : Tensor := t.
Definition from_numpy (a : Logits) : Logits := a.

(** [predictions]; its parameter [labels] is not used by its body,
    [top3_possibilities] reads the global [global_labels]. *)
Definition predictions (global_labels : list string)
    (torch_func jit_func : Tensor -> P Logits)
    (img : Tensor) (labels : list string) : P unit :=
  res <- torch_func img ;;
  golden_prediction <- top3_possibilities global_labels res ;;
  ext (print stdout (PStr "PyTorch prediction")) ;;
  ext (print stdout (PTop3 golden_prediction)) ;;
  out <- jit_func (Tensor_numpy img) ;;
  prediction <- top3_possibilities global_labels (from_numpy out) ;;
  ext (print stdout (PStr "torch-mlir prediction")) ;;
  ext (print stdout (PTop3 prediction)) ;;
  Ret tt.

Definition ResNet18Module_init : P ResNet18Module :=
  r <- ext (models_resnet18 true) ;;
  ext (Module_train r false) ;;
  Ret {| resnet := r |}.

Definition ResNet18Module_forward (self : ResNet18Module) (img : Tensor)
    : P Logits :=
  ext (resnet_forward (resnet self) img).

Definition TestModule_init : P TestModule :=
  m <- ResNet18Module_init ;;
  Ret {| s := m |}.

Definition TestModule_forward (self : TestModule) (x : Tensor) : P Logits :=
  ResNet18Module_forward (s self) x.

Module IREEInvoker.

Record t : Type := { _iree_module : handle }.

Definition __init__ (iree_module : handle) : t :=
  {| _iree_module := iree_module |}.

(** The closure [invoke] of [__getattr__]. *)
Definition invoke (self : t) (function_name : string)
    (args : list Tensor) : P Logits :=
  f <- ext (module_getitem (_iree_module self) function_name) ;;
  ext (function_call f args).

(** [__getattr__], which Python calls for every attribute that the
    ordinary lookup does not find (every name but [_iree_module] and
    the attributes of [object]). *)
Definition __getattr__ (self : t) (function_name : string)
    : P (list Tensor -> P Logits) :=
  Ret (invoke self function_name).

End IREEInvoker.

Module IREELinalgOnTensorsBackend.

Definition compile (imported_module : handle) : P handle :=
  source <- ext (module_str imported_module) ;;
  ext (compile_str source ["dylib-llvm-aot"]).

Definition load (flatbuffer : handle) : P IREEInvoker.t :=
  vm_module <- ext (VmModule_from_flatbuffer flatbuffer) ;;
  config <- ext (Config_new "dylib") ;;
  ctx <- ext (SystemContext_new config) ;;
  ext (add_vm_module ctx vm_module) ;;
  m <- ext (ctx_modules_module ctx) ;;
  Ret (IREEInvoker.__init__ m).

End IREELinalgOnTensorsBackend.

(** [compiled = backend.compile(mb.module)] and
    [jit_module = backend.load(compiled)] of the script. *)
Definition compile_and_load (module : handle) : P IREEInvoker.t :=
  compiled <- IREELinalgOnTensorsBackend.compile module ;;
  IREELinalgOnTensorsBackend.load compiled.

Definition image_url : string :=
  "https://upload.wikimedia.org/wikipedia/commons/2/26/YellowLabradorLooking_new.jpg".

(** The statements of the module, in the order of the file.  A [with]
    block is folded into the calls made inside it: [PassManager_parse]
    takes the module whose context is entered, [file_write] opens, writes
    and closes the file.  [IREELinalgOnTensorsBackend()] builds an object
    without attributes and is left out. *)
Definition script : P unit :=
  mb <- ext ModuleBuilder_new ;;
  ext (print stderr (PStr ("load image from " ++ image_url)%string)) ;;
  img <- load_and_preprocess_image image_url ;;
  labels <- load_labels ;;
  test_module <- TestModule_init ;;
  class_annotator <- ext ClassAnnotator_new ;;
  recursivescriptmodule <- ext (torch_jit_script test_module) ;;
  ext (torch_jit_save recursivescriptmodule "/tmp/foo.pt") ;;
  ext (exportNone class_annotator recursivescriptmodule) ;;
  ext (exportPath class_annotator recursivescriptmodule ["forward"]) ;;
  ext (annotateArgs class_annotator recursivescriptmodule ["forward"]
         [None; Some ([-1; -1; -1; -1]%Z, "torch.float32", true)]) ;;
  ext (import_module mb recursivescriptmodule class_annotator) ;;
  m <- ext (mb_module mb) ;;
  pm <- ext (PassManager_parse m
    "torchscript-module-to-torch-backend-pipeline,torch-backend-to-linalg-on-tensors-backend-pipeline") ;;
  m <- ext (mb_module mb) ;;
  ext (PassManager_run pm m) ;;
  m <- ext (mb_module mb) ;;
  body <- ext (module_body_str m) ;;
  ext (file_write "uncompiled.mlir" body) ;;
  m <- ext (mb_module mb) ;;
  jit_module <- compile_and_load m ;;
  jit_forward <- IREEInvoker.__getattr__ jit_module "forward" ;;
  predictions labels (TestModule_forward test_module)
    (fun a => jit_forward [a]) img labels.

End Resnet18.

(** ** The comparison of the specification *)

Module Spec.

Local Open Scope Q_scope.

(** Modelled from the spec: the record a comparison reports; no record
    of this kind is built anywhere in the sources. *)
Record ComparisonResult : Type :=
  { passed : bool; max_abs_deviation : Q; mismatched_index : option nat }.

Definition deviations (output_baseline output_candidate : numpy.ndarray)
    : list Q :=
  map (fun p => Qabs (fst p - snd p)) (combine output_candidate output_baseline).

Fixpoint first_above (tolerance : Q) (i : nat) (d : list Q) : option nat :=
  match d with
  | [] => None
  | x :: d' =>
      if Qle_bool x tolerance then first_above tolerance (S i) d'
      else Some i
  end.

(** Modelled from the spec: [compare], the elementwise check that all
    elements are within the absolute tolerance, with the maximum
    deviation and the first offending index.  The sources have no
    function that returns these. *)
Definition compare (output_baseline output_candidate : numpy.ndarray)
    (tolerance : Q) : ComparisonResult :=
  let d := deviations output_baseline output_candidate in
  {| passed := forallb (fun x => Qle_bool x tolerance) d;
     max_abs_deviation := fold_right Qmax 0 d;
     mismatched_index := first_above tolerance 0 d |}.

(** Modelled from the spec: the top-3 ranking check, which the script
    does not have: the indices of the three highest scores of the first
    row, compared as sets. *)
Definition top3_indices (res : Resnet18.Logits) : list nat :=
  firstn 3 (hd [] (Resnet18.sort_indexes res)).

Definition subset (l1 l2 : list nat) : bool :=
  forallb (fun i => existsb (Nat.eqb i) l2) l1.

Definition same_index_set (l1 l2 : list nat) : bool :=
  subset l1 l2 && subset l2 l1.

End Spec.

(** ** Stand-ins for the libraries, for concrete runs *)

Module Lab.

Import Resnet18.
Local Open Scope Q_scope.

(** A base class that calls no library and accepts every result. *)
Definition NoLib : Signature := {| Op := Empty_set; Resp := fun _ => unit |}.

Definition no_lib : Handler NoLib unit :=
  fun o => match o with end.

Definition accept (iree_results tflite_results : MobilenetV3.Results)
    (details : unit) : Prog NoLib unit :=
  Ret tt.

(** A base class that rejects every result. *)
Definition reject (iree_results tflite_results : MobilenetV3.Results)
    (details : unit) : Prog NoLib unit :=
  Throw (AssertionError "Number of results do not match").

(** The accepting base class, for arrays of any shape and dtype. *)
Definition passes {F : Type} (iree_results tflite_results : list (NDArray.t F))
    (details : unit) : Prog NoLib unit :=
  Ret tt.

(** A Python float literal, and arrays of dtype [float64]. *)
Definition double (q : Q) : PrimFloat.float :=
  @NDArray.of_decimal _ NDArray.binary64 q.

Definition float64 (shape : list nat) (l : list Q) : NDArray.t PrimFloat.float :=
  NDArray.mk shape (map double l).

(** The outputs of the example scenario. *)
Definition example_baseline : NDArray.t PrimFloat.float :=
  float64 [3%nat] [0.7; 0.2; 0.1].
Definition example_candidate : NDArray.t PrimFloat.float :=
  float64 [3%nat] [0.70005; 0.19998; 0.10001].

(** The scores the two inference paths answer with. *)
Definition golden_scores : Logits := [[0.25; 0.25001; 0.25002; 0.25003]].
Definition jit_scores : Logits := [[0.25003; 0.25002; 0.25001; 0.25]].

(** Libraries that raise nothing.  The softmax stand-in answers with
    the scores themselves. *)
Definition answer (o : op) : resp o :=
  match o as o' return resp o' with
  | ModuleBuilder_new => 1%nat
  | print _ _ => tt
  | requests_get _ _ _ => 2%nat
  | Image_open _ => 3%nat
  | Image_convert _ _ => 4%nat
  | Compose_call _ _ => mkTensor [3; 1; 1]%nat [0.5; 0.25; 0.125]
  | response_text _ => "abcd"
  | str_splitlines _ => ["a"; "b"; "c"; "d"]
  | str_strip line => line
  | models_resnet18 _ => 5%nat
  | Module_train _ _ => tt
  | resnet_forward _ _ => golden_scores
  | torch_softmax res _ => res
  | ClassAnnotator_new => 6%nat
  | torch_jit_script _ => 7%nat
  | torch_jit_save _ _ => tt
  | exportNone _ _ => tt
  | exportPath _ _ _ => tt
  | annotateArgs _ _ _ _ => tt
  | import_module _ _ _ => tt
  | mb_module _ => 8%nat
  | PassManager_parse _ _ => 9%nat
  | PassManager_run _ _ => tt
  | module_body_str _ => "module {}"
  | file_write _ _ => tt
  | module_str _ => "module {}"
  | compile_str _ _ => 10%nat
  | VmModule_from_flatbuffer _ => 11%nat
  | Config_new _ => 12%nat
  | SystemContext_new _ => 13%nat
  | add_vm_module _ _ => tt
  | ctx_modules_module _ => 14%nat
  | module_getitem _ _ => 15%nat
  | function_call _ _ => jit_scores
  end.

Definition libs : Handler Sig unit := fun o e => (Ok (answer o), e).

(** The same libraries, with a compiler that rejects its input and a
    module that has no function of the name asked for. *)
Definition CompilerToolError : Exn :=
  mkExn "CompilerToolError" "Error invoking IREE compiler tool".
Definition KeyError : Exn := mkExn "KeyError" "Function not found in module".

Definition broken_libs : Handler Sig unit :=
  fun o e =>
    match o as o' return result (resp o') * unit with
    | compile_str _ _ => (Raised CompilerToolError, e)
    | module_getitem _ _ => (Raised KeyError, e)
    | o' => (Ok (answer o'), e)
    end.

Definition const_func (res : Logits) (x : Tensor) : P Logits := Ret res.

(** An inference function that raises. *)
Definition raising_func (x : Exn) (img : Tensor) : P Logits := Throw x.

Definition sample : Tensor := mkTensor [1; 3; 1; 1]%nat [0.5; 0.25; 0.125].

End Lab.

(** ** Predicates of the statements below *)

(** What the assertion of [compare_results] asks of the result lists: both
    have a first array, the two arrays combine, and every element [x] of
    the first is within [atol + rtol * |y|] of its partner [y]. *)
Definition first_arrays_close (atol : Q)
    (iree_results tflite_results : MobilenetV3.Results) : Prop :=
  exists (a b : numpy.ndarray) (ps : list (Q * Q)),
    hd_error iree_results = Some a /\
    hd_error tflite_results = Some b /\
    numpy.broadcast a b = Ok ps /\
    forall x y : Q, In (x, y) ps ->
      (Qabs (x - y) <= atol + numpy.default_rtol * Qabs y)%Q.

(** A comparison method is diagnosable when the way a failed comparison
    of two outputs ends tells the record of the spec: the maximum
    deviation and the offending index. *)
Definition diagnosable
    (compare : MobilenetV3.Results -> MobilenetV3.Results -> unit ->
               Prog Lab.NoLib unit) : Prop :=
  exists report : result unit * list (Entry Lab.NoLib) -> Spec.ComparisonResult,
    forall iree tflite : numpy.ndarray,
      Spec.passed (Spec.compare tflite iree 1e-4) = false ->
      let said := report (verdict (run Lab.no_lib (compare [iree] [tflite] tt) tt)) in
      let due := Spec.compare tflite iree 1e-4 in
      Spec.passed said = false /\
      (Spec.max_abs_deviation said == Spec.max_abs_deviation due)%Q /\
      Spec.mismatched_index said = Spec.mismatched_index due.

(** The exception a library call was answered with, if any. *)
Definition raised_by {S : Signature} (en : Entry S) : option Exn :=
  match entry_answer en with
  | Ok _ => None
  | Raised x => Some x
  end.

(** Programs without a [raise] of their own. *)
Inductive no_throw {S : Signature} {A : Type} : Prog S A -> Prop :=
| no_throw_ret (a : A) : no_throw (Ret a)
| no_throw_call (o : Op S) (k : Resp S o -> Prog S A) :
    (forall r : Resp S o, no_throw (k r)) -> no_throw (Call o k).

(** What holds of every run of a program, whatever the libraries answer:
    [wp obs m post] says that [post] holds of the way any run of [m] ends
    and of what [obs] shows of its library calls. *)
Fixpoint wp {S : Signature} {A E : Type} (obs : Entry S -> list E)
    (m : Prog S A) (post : result A -> list E -> Prop) : Prop :=
  match m with
  | Ret a => post (Ok a) []
  | Throw x => post (Raised x) []
  | Call o k =>
      (forall x : Exn, post (Raised x) (obs (mkEntry o (Raised x)))) /\
      (forall v : Resp S o,
         wp obs (k v) (fun out u => post out (obs (mkEntry o (Ok v)) ++ u)))
  end.

(** The library calls of [compile] and of [load]. *)
Definition compile_op (o : Resnet18.op) : bool :=
  match o with
  | Resnet18.module_str _ | Resnet18.compile_str _ _ => true
  | _ => false
  end.

Definition load_op (o : Resnet18.op) : bool :=
  match o with
  | Resnet18.VmModule_from_flatbuffer _ | Resnet18.Config_new _
  | Resnet18.SystemContext_new _ | Resnet18.add_vm_module _ _
  | Resnet18.ctx_modules_module _ => true
  | _ => false
  end.

(** What happens to the input sample in a run: the preprocessing
    pipeline produces it, the baseline and the candidate receive it. *)
Inductive SampleUse : Type :=
| Generated (t : result Resnet18.Tensor)
| BaselineInput (x : Resnet18.Tensor)
| CandidateInput (args : list Resnet18.Tensor).

Definition sample_use (en : Entry Resnet18.Sig) : list SampleUse :=
  match en with
  | mkEntry o a =>
      match o return result (Resnet18.resp o) -> list SampleUse with
      | Resnet18.Compose_call _ _ => fun a => [Generated a]
      | Resnet18.resnet_forward _ x => fun _ => [BaselineInput x]
      | Resnet18.function_call _ args => fun _ => [CandidateInput args]
      | _ => fun _ => []
      end a
  end.

Definition sample_uses (t : list (Entry Resnet18.Sig)) : list SampleUse :=
  flat_map sample_use t.

(** The sample is generated at most once, before any inference; the
    baseline receives it as generated (with the batch dimension added),
    and the candidate receives what the baseline received. *)
Definition sample_shared (u : list SampleUse) : Prop :=
  match u with
  | [] | [Generated _] => True
  | [Generated (Ok y); BaselineInput x] => x = Resnet18.unsqueeze y 0
  | [Generated (Ok y); BaselineInput x; CandidateInput args] =>
      x = Resnet18.unsqueeze y 0 /\ args = [Resnet18.Tensor_numpy x]
  | _ => False
  end.

(** How the script may end and what it has then done with the sample:
    a run that ends normally has generated the sample once and has given
    it to the baseline and then to the candidate. *)
Definition sample_shared_by_run (out : result unit) (u : list SampleUse) : Prop :=
  sample_shared u /\
  (out = Ok tt ->
   exists y : Resnet18.Tensor,
     u = [Generated (Ok y); BaselineInput (Resnet18.unsqueeze y 0);
          CandidateInput [Resnet18.Tensor_numpy (Resnet18.unsqueeze y 0)]]).

(** The softmax of the library keeps the shape of its argument. *)
Definition softmax_keeps_shape {Env : Type} (h : Handler Resnet18.Sig Env) : Prop :=
  forall (res sm : Resnet18.Logits) (dim : nat) (e : Env),
    fst (h (Resnet18.torch_softmax res dim) e) = Ok sm ->
    map (@List.length Q) sm = map (@List.length Q) res.

(** An inference function that, for every input and in every state of
    the world, returns at least one row of scores, the first with no more
    classes than there are labels. *)
Definition returns_scores {Env : Type} (h : Handler Resnet18.Sig Env)
    (labels : list string) (f : Resnet18.Tensor -> Resnet18.P Resnet18.Logits)
    : Prop :=
  forall (x : Resnet18.Tensor) (e : Env),
    exists (row : list Q) (rest : Resnet18.Logits),
      outcome (run h (f x) e) = Ok (row :: rest) /\
      (List.length row <= List.length labels)%nat.

(** The order [torch.sort] puts the indexed scores in. *)
Definition pair_ge (p q : nat * Q) : Prop := (snd q <= snd p)%Q.

(** Index [i] has a score at least as high as index [j]. *)
Definition score_ge (row : list Q) (i j : nat) : Prop :=
  (nth j row 0 <= nth i row 0)%Q.

(** What a run does with the torchvision model: the mode it is put in,
    and the inference run on it. *)
Inductive ModelUse : Type :=
| SetMode (resnet : Resnet18.handle) (training : bool)
| Inference (resnet : Resnet18.handle).

Definition model_use (en : Entry Resnet18.Sig) : list ModelUse :=
  match entry_op en with
  | Resnet18.Module_train r mode => [SetMode r mode]
  | Resnet18.resnet_forward r _ => [Inference r]
  | _ => []
  end.

(** The model is put in evaluation mode before the one inference run on
    it. *)
Definition eval_mode_first (u : list ModelUse) : Prop :=
  match u with
  | [] | [SetMode _ false] => True
  | [SetMode r false; Inference r'] => r = r'
  | _ => False
  end.

(** The end of a successful [load], and what the script does with the
    two models: inference on either path, a lookup in the loaded module,
    a line on the standard output. *)
Inductive Step : Type := Loaded | Acted.

Definition step_of (en : Entry Resnet18.Sig) : list Step :=
  match en with
  | mkEntry o a =>
      match o return result (Resnet18.resp o) -> list Step with
      | Resnet18.ctx_modules_module _ => fun a => if is_ok a then [Loaded] else []
      | Resnet18.resnet_forward _ _ | Resnet18.function_call _ _
      | Resnet18.module_getitem _ _ => fun _ => [Acted]
      | Resnet18.print Resnet18.stdout _ => fun _ => [Acted]
      | _ => fun _ => []
      end a
  end.

Definition acts_after_load (u : list Step) : Prop :=
  match u with
  | [] | Loaded :: _ => True
  | Acted :: _ => False
  end.

(** The lines of the standard output, and the run of the candidate. *)
Inductive Shown : Type :=
| Line (v : Resnet18.Printed)
| CandidateRun.

Definition shown (en : Entry Resnet18.Sig) : list Shown :=
  match entry_op en with
  | Resnet18.print Resnet18.stdout v => [Line v]
  | Resnet18.function_call _ _ => [CandidateRun]
  | _ => []
  end.

(** The output of a run that ends normally, and the output that is
    there by the time the candidate runs. *)
Definition report_order (out : result unit) (u : list Shown) : Prop :=
  (out = Ok tt ->
   exists golden prediction : list (string * Q),
     u = [Line (Resnet18.PStr "PyTorch prediction");
          Line (Resnet18.PTop3 golden); CandidateRun;
          Line (Resnet18.PStr "torch-mlir prediction");
          Line (Resnet18.PTop3 prediction)]) /\
  (In CandidateRun u ->
   exists (golden : list (string * Q)) (rest : list Shown),
     u = Line (Resnet18.PStr "PyTorch prediction")
         :: Line (Resnet18.PTop3 golden) :: CandidateRun :: rest /\
     ~ In CandidateRun rest).

(** * Facts about runs *)

Section RunFacts.

Context {S : Signature} {Env : Type}.
Variable h : Handler S Env.

Lemma run_bind (A B : Type) (m : Prog S A) (f : A -> Prog S B) (e : Env) :
  run h (bind m f) e =
  match outcome (run h m e) with
  | Ok a =>
      let r := run h (f a) (final (run h m e)) in
      mkRun (outcome r) (trace (run h m e) ++ trace r) (final r)
  | Raised x => mkRun (Raised x) (trace (run h m e)) (final (run h m e))
  end.
Proof.
  revert e. induction m as [a | x | o k IH]; intros e; simpl.
  - destruct (run h (f a) e); reflexivity.
  - reflexivity.
  - destruct (h o e) as [[v | x] e']; simpl; [ | reflexivity ].
    rewrite IH. destruct (outcome (run h (k v) e')); reflexivity.
Qed.

Lemma outcome_bind (A B : Type) (m : Prog S A) (f : A -> Prog S B) (e : Env) :
  outcome (run h (bind m f) e) =
  match outcome (run h m e) with
  | Ok a => outcome (run h (f a) (final (run h m e)))
  | Raised x => Raised x
  end.
Proof.
  rewrite run_bind. destruct (outcome (run h m e)); reflexivity.
Qed.

Lemma trace_bind (A B : Type) (m : Prog S A) (f : A -> Prog S B) (e : Env) :
  trace (run h (bind m f) e) =
  trace (run h m e) ++
  match outcome (run h m e) with
  | Ok a => trace (run h (f a) (final (run h m e)))
  | Raised _ => []
  end.
Proof.
  rewrite run_bind. destruct (outcome (run h m e)); simpl;
    [ reflexivity | now rewrite app_nil_r ].
Qed.

End RunFacts.

(** * The closeness assertion of [MobilenetV3Test] *)

Section Closeness.

Import MobilenetV3.
Local Open Scope Q_scope.

Lemma all_isclose_iff (rtol atol : Q) (ps : list (Q * Q)) :
  numpy.all (map (numpy.isclose1 rtol atol) ps) = true <->
  forall x y : Q, In (x, y) ps -> Qabs (x - y) <= atol + rtol * Qabs y.
Proof.
  unfold numpy.all. rewrite forallb_forall. split.
  - intros H x y Hin. apply Qle_bool_iff.
    apply (H (numpy.isclose1 rtol atol (x, y))).
    apply in_map_iff. now exists (x, y).
  - intros H b Hb. apply in_map_iff in Hb. destruct Hb as [[x y] [<- Hin]].
    apply Qle_bool_iff. simpl. now apply H.
Qed.

(** The assertion calls no library: it returns or raises at once. *)
Lemma assert_isclose_pure (S : Signature) (atol : Q) (iree tflite : Results) :
  (exists r : result unit, @assert_isclose S atol iree tflite = lift r) /\
  (@assert_isclose S atol iree tflite = Ret tt <->
   first_arrays_close atol iree tflite).
Proof.
  unfold assert_isclose, first_arrays_close, numpy.isclose, assertTrue.
  destruct iree as [ | a ra]; simpl.
  { split; [ now exists (Raised (IndexError "list index out of range")) | ].
    split; [ discriminate | ]. intros (a & b & ps & Ha & _). discriminate. }
  destruct tflite as [ | b rb]; simpl.
  { split; [ now exists (Raised (IndexError "list index out of range")) | ].
    split; [ discriminate | ]. intros (a' & b & ps & _ & Hb & _). discriminate. }
  destruct (numpy.broadcast a b) as [ps | x] eqn:Hbc; simpl.
  - destruct (numpy.all (map (numpy.isclose1 numpy.default_rtol atol) ps)) eqn:Hall.
    + split; [ now exists (Ok tt) | ]. split; [ intros _ | reflexivity ].
      exists a, b, ps. repeat split; try assumption.
      now apply all_isclose_iff.
    + split; [ now exists (Raised (AssertionError "False is not true")) | ].
      split; [ discriminate | ].
      intros (a' & b' & ps' & Ha & Hb & Hps & Hclose).
      injection Ha as <-. injection Hb as <-. rewrite Hbc in Hps.
      injection Hps as <-. apply all_isclose_iff in Hclose. congruence.
  - split; [ now exists (Raised x) | ]. split; [ discriminate | ].
    intros (a' & b' & ps' & Ha & Hb & Hps & _).
    injection Ha as <-. injection Hb as <-. congruence.
Qed.

Lemma run_lift (S : Signature) (Env A : Type) (h : Handler S Env)
    (r : result A) (e : Env) :
  run h (lift r) e = mkRun r [] e.
Proof. destruct r; reflexivity. Qed.

(** [compare_results] passes exactly when the method of the base class
    passes and the assertion holds. *)
Lemma compare_results_atol_ok (S : Signature) (Env Details : Type)
    (super : Results -> Results -> Details -> Prog S unit)
    (h : Handler S Env) (e : Env) (atol : Q)
    (iree tflite : Results) (details : Details) :
  outcome (run h (compare_results_atol super atol iree tflite details) e) = Ok tt <->
  outcome (run h (super iree tflite details) e) = Ok tt /\
  first_arrays_close atol iree tflite.
Proof.
  unfold compare_results_atol. rewrite outcome_bind.
  destruct (assert_isclose_pure S atol iree tflite) as [[r Hr] Hiff].
  destruct (outcome (run h (super iree tflite details) e)) as [[] | x].
  - rewrite Hr, run_lift. simpl. rewrite <- Hiff, Hr.
    destruct r as [[] | x]; simpl; split;
      try (intros [_ H]); try discriminate; auto.
  - split; [ discriminate | intros [H _]; discriminate ].
Qed.

End Closeness.

Section ClosenessClaims.

Import MobilenetV3.
Local Open Scope Q_scope.

Variables (S : Signature) (Env Details : Type).
Variable super : Results -> Results -> Details -> Prog S unit.
Variable h : Handler S Env.



(** C10: the closeness assertion of the subclass looks at the first
    array of each result list only.  Whatever follows the first arrays
    has no influence on it: when the first arrays are close and the
    method of the base class raises nothing, [compare_results] passes,
    however far the later arrays are from each other. *)
Theorem assertion_checks_first_array_only
    (e : Env) (details : Details) (a b : numpy.ndarray) (ra rb ra' rb' : Results) :
  @assert_isclose S 1e-4 (a :: ra) (b :: rb) =
  @assert_isclose S 1e-4 (a :: ra') (b :: rb') /\
  (@assert_isclose S 1e-4 [a] [b] = Ret tt ->
   outcome (run h (super (a :: ra) (b :: rb) details) e) = Ok tt ->
   outcome (run h (compare_results super (a :: ra) (b :: rb) details) e) = Ok tt).
Proof.
  split; [ reflexivity | ].
  intros Hclose Hsuper. unfold compare_results, compare_results_atol.
  rewrite outcome_bind, Hsuper.
  change (@assert_isclose S 1e-4 (a :: ra) (b :: rb))
    with (@assert_isclose S 1e-4 [a] [b]).
  rewrite Hclose. reflexivity.
Qed.

End ClosenessClaims.


(** A run for C10: the second arrays are a million apart. *)
Lemma assertion_checks_first_array_only_witness :
  outcome (run Lab.no_lib
             (MobilenetV3.compare_results Lab.accept
                [[1]; [0]] [[1]; [1000000]] tt) tt) = Ok tt.
Proof.
  apply (proj2 (@assertion_checks_first_array_only Lab.NoLib unit unit
                  Lab.accept Lab.no_lib tt tt [1] [1] [[0]] [[1000000]] [] []));
    reflexivity.
Defined.



(** * The closeness assertion on arrays of any shape *)

Section Broadcasting.

Import NDArray.

Lemma broadcast_dims_same (s : list nat) : broadcast_dims s s = Some s.
Proof.
  induction s as [ | m s IH]; simpl; [ reflexivity | ].
  now rewrite IH, Nat.eqb_refl.
Qed.

Lemma broadcast_shapes_same (s : list nat) : broadcast_shapes s s = Some s.
Proof.
  unfold broadcast_shapes. rewrite broadcast_dims_same. simpl.
  now rewrite rev_involutive.
Qed.

Lemma concat_chunks (A : Type) (n k : nat) (d : list A) :
  List.length d = (n * k)%nat -> List.concat (chunks n k d) = d.
Proof.
  revert d. induction n as [ | n IH]; intros d H; simpl in *.
  - symmetry. now apply length_zero_iff_nil.
  - rewrite IH; [ apply firstn_skipn | ]. rewrite length_skipn. lia.
Qed.

Lemma chunks_length (A : Type) (n k : nat) (d c : list A) :
  List.length d = (n * k)%nat -> In c (chunks n k d) -> List.length c = k.
Proof.
  revert d. induction n as [ | n IH]; intros d H Hin; simpl in *;
    [ contradiction | ].
  destruct Hin as [<- | Hin].
  - rewrite length_firstn. lia.
  - apply (IH (skipn k d)); [ rewrite length_skipn; lia | exact Hin ].
Qed.

(** Stretching an array to its own shape changes nothing. *)
Lemma expand_same (A : Type) (s : list nat) (d : list A) :
  List.length d = size s -> expand s s d = d.
Proof.
  revert d. induction s as [ | m s IH]; intros d H; [ reflexivity | ].
  cbn [expand]. rewrite Nat.eqb_refl.
  rewrite (map_ext_in _ (fun c => c)).
  - rewrite map_id. now apply concat_chunks.
  - intros c Hc. apply IH.
    apply (@chunks_length A m (size s) d c); [ exact H | exact Hc ].
Qed.

Lemma pad_same (s : list nat) : pad s (List.length s) = s.
Proof. unfold pad. now rewrite Nat.sub_diag. Qed.

Lemma broadcast_to_same (F : Type) (a : t F) :
  wf a -> broadcast_to a (shape a) = data a.
Proof.
  intros H. unfold broadcast_to. rewrite pad_same. now apply expand_same.
Qed.

(** Arrays of one shape are paired position by position. *)
Lemma broadcast_same_shape (F : Type) (a b : t F) :
  wf a -> wf b -> shape a = shape b ->
  broadcast a b = Ok (combine (data a) (data b)).
Proof.
  intros Ha Hb Hs. unfold broadcast.
  rewrite Hs, broadcast_shapes_same, (broadcast_to_same Hb).
  rewrite <- Hs. now rewrite (broadcast_to_same Ha).
Qed.

Lemma concat_repeat_repeat (A : Type) (x : A) (n k : nat) :
  List.concat (repeat (repeat x k) n) = repeat x (n * k).
Proof.
  induction n as [ | n IH]; simpl; [ reflexivity | ].
  now rewrite IH, repeat_app.
Qed.

Lemma size_ones (n : nat) : size (repeat 1%nat n) = 1%nat.
Proof.
  induction n as [ | n IH]; [ reflexivity | ].
  cbn [repeat size fold_right]. fold (size (repeat 1%nat n)). rewrite IH.
  reflexivity.
Qed.

(** One element stretched to a shape fills it. *)
Lemma expand_ones (A : Type) (s : list nat) (x : A) :
  expand (repeat 1%nat (List.length s)) s [x] = repeat x (size s).
Proof.
  induction s as [ | k s IH]; [ reflexivity | ].
  cbn [List.length repeat expand].
  change (size (k :: s)) with (k * size s)%nat.
  destruct (1 =? k)%nat eqn:Hk.
  - apply Nat.eqb_eq in Hk. subst k. rewrite size_ones.
    cbn [chunks firstn map List.concat]. rewrite IH, app_nil_r.
    now rewrite Nat.mul_1_l.
  - rewrite IH. apply concat_repeat_repeat.
Qed.

Lemma broadcast_dims_one_l (n : nat) (t : list nat) :
  broadcast_dims [1%nat] (n :: t) = Some (n :: t).
Proof.
  simpl. destruct n as [ | [ | n]]; reflexivity.
Qed.

Lemma broadcast_dims_one_r (n : nat) (s : list nat) :
  broadcast_dims (n :: s) [1%nat] = Some (n :: s).
Proof.
  simpl. replace (broadcast_dims s []) with (Some s) by now destruct s.
  destruct n as [ | [ | n]]; reflexivity.
Qed.

Lemma broadcast_shapes_one_l (s : list nat) :
  s <> [] -> broadcast_shapes [1%nat] s = Some s.
Proof.
  intros Hs. unfold broadcast_shapes. cbn [rev app].
  destruct (rev s) as [ | n t] eqn:Hr.
  - exfalso. apply Hs. rewrite <- (rev_involutive s), Hr. reflexivity.
  - rewrite broadcast_dims_one_l, <- Hr. simpl. now rewrite rev_involutive.
Qed.

Lemma broadcast_shapes_one_r (s : list nat) :
  s <> [] -> broadcast_shapes s [1%nat] = Some s.
Proof.
  intros Hs. unfold broadcast_shapes. cbn [rev app].
  destruct (rev s) as [ | n t] eqn:Hr.
  - exfalso. apply Hs. rewrite <- (rev_involutive s), Hr. reflexivity.
  - rewrite broadcast_dims_one_r, <- Hr. simpl. now rewrite rev_involutive.
Qed.

Lemma broadcast_to_single (F : Type) (x : F) (s : list nat) :
  s <> [] -> broadcast_to (mk [1%nat] [x]) s = repeat x (size s).
Proof.
  intros Hs. unfold broadcast_to, pad. cbn [shape data List.length].
  destruct s as [ | k s]; [ congruence | ].
  replace (repeat 1%nat (List.length (k :: s) - 1) ++ [1%nat])
    with (repeat 1%nat (List.length (k :: s))).
  - apply expand_ones.
  - cbn [List.length]. rewrite Nat.sub_succ, Nat.sub_0_r.
    cbn [repeat]. apply repeat_cons.
Qed.

(** Two shapes that have, at one position counted from the last
    dimension, different sizes neither of which is one, do not go
    together. *)
Lemma broadcast_dims_clash (i : nat) :
  forall (s t : list nat) (m n : nat),
    nth_error s i = Some m -> nth_error t i = Some n ->
    m <> n -> m <> 1%nat -> n <> 1%nat ->
    broadcast_dims s t = None.
Proof.
  induction i as [ | i IH]; intros [ | m' s] [ | n' t] m n Hm Hn Hmn Hm1 Hn1;
    simpl in Hm, Hn; try discriminate.
  - injection Hm as ->. injection Hn as ->. simpl.
    destruct (broadcast_dims s t); [ | reflexivity ].
    apply Nat.eqb_neq in Hmn, Hm1, Hn1. now rewrite Hmn, Hm1, Hn1.
  - simpl. now rewrite (IH s t m n).
Qed.

Lemma in_combine_repeat_l (A B : Type) (x x' : A) (y : B) (l : list B) :
  In (x', y) (combine (repeat x (List.length l)) l) <-> x' = x /\ In y l.
Proof.
  induction l as [ | z l IH]; simpl; [ tauto | ].
  rewrite IH. split.
  - intros [H | [-> H]]; [ injection H as <- <-; auto | auto ].
  - intros [-> [-> | H]]; auto.
Qed.

Lemma in_combine_diag (A : Type) (x y : A) (l : list A) :
  In (x, y) (combine l l) <-> x = y /\ In x l.
Proof.
  induction l as [ | z l IH]; simpl; [ tauto | ].
  rewrite IH. split.
  - intros [H | [-> H]]; [ injection H as <- <-; auto | auto ].
  - intros [<- [-> | H]]; auto.
Qed.

Lemma all_map_iff (A : Type) (f : A -> bool) (l : list A) :
  all (map f l) = true <-> forall x : A, In x l -> f x = true.
Proof.
  unfold all. induction l as [ | x l IH]; simpl.
  - split; [ intros _ y [] | reflexivity ].
  - rewrite andb_true_iff, IH. split.
    + intros [Hx Hl] y [<- | Hy]; auto.
    + intros H. split; [ apply H; now left | intros y Hy; apply H; now right ].
Qed.

End Broadcasting.

Section ArrayCloseness.

Import NDArray MobilenetV3Test.
Local Open Scope Q_scope.

Context {F : Type} {D : Dtype F}.

(** The assertion on two first arrays that broadcast together. *)
Lemma assert_isclose_eq (S : Signature) (atol : F) (a b : t F)
    (ra rb : list (t F)) (ps : list (F * F)) :
  broadcast a b = Ok ps ->
  assert_isclose (S := S) atol (a :: ra) (b :: rb) =
  assertTrue (all (map (isclose1 (of_decimal 1e-5) atol) ps)).
Proof.
  intros Hps. unfold assert_isclose, isclose. simpl. now rewrite Hps.
Qed.

(** The assertion calls no library: it is a computation on the arrays. *)
Lemma assert_isclose_lift (S : Signature) (atol : F) (iree tflite : list (t F)) :
  exists r : result unit, assert_isclose (S := S) atol iree tflite = lift r.
Proof.
  unfold assert_isclose, isclose.
  destruct iree as [ | a ra]; [ now eexists (Raised _) | ].
  destruct tflite as [ | b rb]; [ now eexists (Raised _) | ].
  simpl. destruct (broadcast a b) as [ps | x]; simpl.
  - destruct (all _); [ now exists (Ok tt) | now eexists (Raised _) ].
  - now exists (Raised x).
Qed.

Lemma isclose1_pair (rtol atol x y : F) :
  isclose1 rtol atol (x, y) = true <->
  if isfinite x && isfinite y
  then less_equal (absolute (subtract x y))
                  (add atol (multiply rtol (absolute y))) = true
  else equal x y = true.
Proof.
  unfold isclose1. simpl. now destruct (isfinite x && isfinite y).
Qed.

Lemma assertTrue_ok (S : Signature) (c : bool) :
  assertTrue (S := S) c = Ret tt <-> c = true.
Proof. destruct c; simpl; split; congruence. Qed.

(** When the assertion holds. *)
Lemma assert_isclose_ok (S : Signature) (atol : F) (iree tflite : list (t F)) :
  assert_isclose (S := S) atol iree tflite = Ret tt <->
  exists (a b : t F) (s : list nat),
    hd_error iree = Some a /\ hd_error tflite = Some b /\
    broadcast_shapes (shape a) (shape b) = Some s /\
    forall x y : F,
      In (x, y) (combine (broadcast_to a s) (broadcast_to b s)) ->
      if isfinite x && isfinite y
      then less_equal (absolute (subtract x y))
                      (add atol (multiply (of_decimal 1e-5) (absolute y))) = true
      else equal x y = true.
Proof.
  destruct iree as [ | a ra].
  { split; [ discriminate | intros (? & ? & ? & H & _); discriminate ]. }
  destruct tflite as [ | b rb].
  { split; [ discriminate | intros (? & ? & ? & _ & H & _); discriminate ]. }
  destruct (broadcast a b) as [ps | x] eqn:Hps.
  - rewrite (@assert_isclose_eq S atol a b ra rb ps Hps), assertTrue_ok, all_map_iff.
    unfold broadcast in Hps.
    destruct (broadcast_shapes (shape a) (shape b)) as [s | ] eqn:Hs;
      [ | discriminate ].
    injection Hps as <-. split.
    + intros H. exists a, b, s.
      split; [ reflexivity | split; [ reflexivity | split; [ exact Hs | ] ] ].
      intros x y Hin. apply isclose1_pair. now apply H.
    + intros (a' & b' & s' & Ha & Hb & Hs' & H).
      injection Ha as <-. injection Hb as <-. rewrite Hs in Hs'.
      injection Hs' as <-.
      intros [x y] Hin. apply isclose1_pair. now apply H.
  - split.
    + unfold assert_isclose, isclose. simpl. rewrite Hps. discriminate.
    + intros (a' & b' & s' & Ha & Hb & Hs & _).
      injection Ha as <-. injection Hb as <-.
      unfold broadcast in Hps. rewrite Hs in Hps. discriminate.
Qed.

Lemma lift_ok (S : Signature) (r : result unit) :
  lift (S := S) r = Ret tt <-> r = Ok tt.
Proof. destruct r as [[] | x]; simpl; split; congruence. Qed.

Variables (S : Signature) (Env Details : Type).
Variable super : list (t F) -> list (t F) -> Details -> Prog S unit.
Variable h : Handler S Env.

(** After the method of the base class has passed, the outcome is the
    assertion's. *)
Lemma compare_results_after_super
    (e : Env) (iree tflite : list (t F)) (details : Details) (r : result unit) :
  outcome (run h (super iree tflite details) e) = Ok tt ->
  assert_isclose (S := S) (of_decimal 1e-4) iree tflite = lift r ->
  outcome (run h (compare_results super iree tflite details) e) = r.
Proof.
  intros Hsuper Hr. unfold compare_results.
  now rewrite outcome_bind, Hsuper, Hr, run_lift.
Qed.

Lemma compare_results_ok
    (e : Env) (iree tflite : list (t F)) (details : Details) :
  outcome (run h (compare_results super iree tflite details) e) = Ok tt <->
  outcome (run h (super iree tflite details) e) = Ok tt /\
  assert_isclose (S := S) (of_decimal 1e-4) iree tflite = Ret tt.
Proof.
  unfold compare_results. rewrite outcome_bind.
  destruct (assert_isclose_lift S (of_decimal 1e-4) iree tflite) as [r Hr].
  rewrite Hr, lift_ok.
  destruct (outcome (run h (super iree tflite details) e)) as [[] | x].
  - rewrite run_lift. simpl. tauto.
  - split; [ discriminate | intros [H _]; discriminate ].
Qed.

(** C1 (amended): [compare_results] passes exactly when the method of
    the base class passes, both result lists have a first array, the
    shapes of the two first arrays broadcast together, and every
    element [x] of the first candidate array is close to the element [y]
    of the first baseline array it is paired with by broadcasting: for
    finite [x] and [y], [|x - y| <= 1e-4 + 1e-5 * |y|] in the arithmetic
    of the dtype, the absolute tolerance of the call together with the
    default relative tolerance of [numpy.isclose]; otherwise [x == y]. *)
Theorem compare_results_passes_iff
    (e : Env) (iree tflite : list (t F)) (details : Details) :
  outcome (run h (compare_results super iree tflite details) e) = Ok tt <->
  outcome (run h (super iree tflite details) e) = Ok tt /\
  exists (a b : t F) (s : list nat),
    hd_error iree = Some a /\ hd_error tflite = Some b /\
    broadcast_shapes (shape a) (shape b) = Some s /\
    forall x y : F,
      In (x, y) (combine (broadcast_to a s) (broadcast_to b s)) ->
      if isfinite x && isfinite y
      then less_equal (absolute (subtract x y))
                      (add (of_decimal 1e-4)
                           (multiply (of_decimal 1e-5) (absolute y))) = true
      else equal x y = true.
Proof.
  rewrite compare_results_ok, assert_isclose_ok. reflexivity.
Qed.

(** X3: when the shapes of the two first arrays have, at one position
    counted from the last dimension, different sizes neither of which
    is one, [numpy.isclose] cannot broadcast them and [compare_results]
    ends with a [ValueError] instead of a failed assertion, the method
    of the base class having passed. *)
Theorem shape_mismatch_raises_ValueError
    (e : Env) (details : Details) (a b : t F) (ra rb : list (t F))
    (i m n : nat) :
  outcome (run h (super (a :: ra) (b :: rb) details) e) = Ok tt ->
  nth_error (rev (shape a)) i = Some m ->
  nth_error (rev (shape b)) i = Some n ->
  m <> n -> m <> 1%nat -> n <> 1%nat ->
  exists msg : string,
    outcome (run h (compare_results super (a :: ra) (b :: rb) details) e) =
    Raised (ValueError msg).
Proof.
  intros Hsuper Hm Hn Hmn Hm1 Hn1. eexists.
  apply compare_results_after_super; [ exact Hsuper | ].
  unfold assert_isclose, isclose, broadcast, broadcast_shapes. simpl.
  rewrite (broadcast_dims_clash i _ _ Hm Hn Hmn Hm1 Hn1). reflexivity.
Qed.

(** X4: when the candidate's first array is the baseline's first array,
    [compare_results] passes exactly when the method of the base class
    passes and every element is close to itself; a value that is not
    finite has to be equal to itself, which a NaN is not. *)
Theorem identical_first_arrays_pass
    (e : Env) (details : Details) (a : t F) (ra rb : list (t F)) :
  wf a ->
  outcome (run h (compare_results super (a :: ra) (a :: rb) details) e) = Ok tt <->
  outcome (run h (super (a :: ra) (a :: rb) details) e) = Ok tt /\
  forall x : F, In x (data a) ->
    if isfinite x
    then less_equal (absolute (subtract x x))
                    (add (of_decimal 1e-4)
                         (multiply (of_decimal 1e-5) (absolute x))) = true
    else equal x x = true.
Proof.
  intros Hwf. rewrite compare_results_ok.
  rewrite (@assert_isclose_eq S _ a a ra rb _ (broadcast_same_shape Hwf Hwf eq_refl)).
  rewrite assertTrue_ok, all_map_iff.
  apply and_iff_compat_l. split.
  - intros H x Hin. specialize (H (x, x)).
    rewrite isclose1_pair, andb_diag in H. apply H.
    apply in_combine_diag. auto.
  - intros H [x y] Hin. apply in_combine_diag in Hin as [<- Hin].
    rewrite isclose1_pair, andb_diag. now apply H.
Qed.

(** X5: two first arrays of the same shape are compared position by
    position: [compare_results] passes exactly when the method of the
    base class passes and every candidate element is close to the
    baseline element at the same position. *)
Theorem same_shape_is_compared_by_position
    (e : Env) (details : Details) (a b : t F) (ra rb : list (t F)) :
  wf a -> wf b -> shape a = shape b ->
  outcome (run h (compare_results super (a :: ra) (b :: rb) details) e) = Ok tt <->
  outcome (run h (super (a :: ra) (b :: rb) details) e) = Ok tt /\
  forall x y : F, In (x, y) (combine (data a) (data b)) ->
    if isfinite x && isfinite y
    then less_equal (absolute (subtract x y))
                    (add (of_decimal 1e-4)
                         (multiply (of_decimal 1e-5) (absolute y))) = true
    else equal x y = true.
Proof.
  intros Ha Hb Hs. rewrite compare_results_ok.
  rewrite (@assert_isclose_eq S _ a b ra rb _ (broadcast_same_shape Ha Hb Hs)).
  rewrite assertTrue_ok, all_map_iff.
  apply and_iff_compat_l. split.
  - intros H x y Hin. apply isclose1_pair. now apply H.
  - intros H [x y] Hin. apply isclose1_pair. now apply H.
Qed.

(** X6: the assertion does not require equal shapes: a candidate first
    array of shape [(1,)] with the element [x] is broadcast against a
    baseline first array of any shape with at least one dimension, and
    [compare_results] then passes exactly when the method of the base
    class passes and [x] is close to every baseline element. *)
Theorem single_element_is_broadcast
    (e : Env) (details : Details) (x : F) (b : t F) (ra rb : list (t F)) :
  wf b -> shape b <> [] ->
  outcome (run h (compare_results super (mk [1%nat] [x] :: ra) (b :: rb) details) e)
    = Ok tt <->
  outcome (run h (super (mk [1%nat] [x] :: ra) (b :: rb) details) e) = Ok tt /\
  forall y : F, In y (data b) ->
    if isfinite x && isfinite y
    then less_equal (absolute (subtract x y))
                    (add (of_decimal 1e-4)
                         (multiply (of_decimal 1e-5) (absolute y))) = true
    else equal x y = true.
Proof.
  intros Hb Hs. rewrite compare_results_ok.
  assert (Hps : broadcast (mk [1%nat] [x]) b =
                Ok (combine (repeat x (List.length (data b))) (data b))).
  { unfold broadcast. cbn [shape]. rewrite (broadcast_shapes_one_l Hs).
    rewrite (broadcast_to_single x Hs), (broadcast_to_same Hb).
    now rewrite Hb. }
  rewrite (@assert_isclose_eq S _ _ b ra rb _ Hps).
  rewrite assertTrue_ok, all_map_iff.
  apply and_iff_compat_l. split.
  - intros H y Hin. apply isclose1_pair. apply H.
    apply in_combine_repeat_l. auto.
  - intros H [x' y] Hin. apply in_combine_repeat_l in Hin as [-> Hin].
    apply isclose1_pair. now apply H.
Qed.

End ArrayCloseness.

Section RunsOfTheAssertion.

Context {S : Signature} {Env : Type}.
Variable h : Handler S Env.

(** A program followed by nothing runs as the program. *)
Lemma run_then_ret (m : Prog S unit) (e : Env) :
  run h (m ;; Ret tt) e = run h m e.
Proof.
  rewrite run_bind. destruct (run h m e) as [[[] | x] t f]; simpl;
    [ now rewrite app_nil_r | reflexivity ].
Qed.

End RunsOfTheAssertion.

(** C1, as stated, fails on the code: the candidate [[100000.5]] passes
    against the baseline [[100000.]] whenever the method of the base
    class passes, although the absolute deviation [0.5] is not within
    [1e-4]. *)
Lemma relative_tolerance_accepts_deviation :
  (forall (S : Signature) (Env Details : Type)
          (super : list (NDArray.t PrimFloat.float) ->
                   list (NDArray.t PrimFloat.float) -> Details -> Prog S unit)
          (h : Handler S Env) (e : Env) (details : Details),
     outcome (run h (super [Lab.float64 [1%nat] [100000.5%Q]]
                           [Lab.float64 [1%nat] [100000%Q]] details) e) = Ok tt ->
     outcome (run h (MobilenetV3Test.compare_results (D := NDArray.binary64) super
                       [Lab.float64 [1%nat] [100000.5%Q]]
                       [Lab.float64 [1%nat] [100000%Q]] details) e) = Ok tt) /\
  PrimFloat.leb
    (PrimFloat.abs (PrimFloat.sub (Lab.double 100000.5%Q)
                                  (Lab.double 100000%Q)))
    (Lab.double 1e-4%Q) = false.
Proof.
  split; [ | vm_compute; reflexivity ].
  intros S Env Details super h e details Hsuper.
  unfold MobilenetV3Test.compare_results.
  rewrite outcome_bind, Hsuper.
  replace (MobilenetV3Test.assert_isclose _ _ _) with (@Ret S unit tt)
    by (vm_compute; reflexivity).
  reflexivity.
Qed.

(** C2 (amended): for the baseline [[0.7, 0.2, 0.1]] and the candidate
    [[0.70005, 0.19998, 0.10001]] in double precision the assertion of
    [compare_results] holds with its tolerance [1e-4], and does not
    with [1e-5]; so [compare_results] passes exactly when the method of
    the base class passes, while with [0.7002] as first candidate
    element it raises an [AssertionError].  The largest elementwise
    deviation of the two arrays is that of the first elements and is
    [5e-5] up to [1e-12]. *)
Theorem example_scenario_passes :
  (forall S : Signature,
     MobilenetV3Test.assert_isclose (S := S) (D := NDArray.binary64)
       (Lab.double 1e-4%Q) [Lab.example_candidate] [Lab.example_baseline]
     = Ret tt) /\
  (forall S : Signature,
     MobilenetV3Test.assert_isclose (S := S) (D := NDArray.binary64)
       (Lab.double 1e-5%Q) [Lab.example_candidate] [Lab.example_baseline]
     = Throw (AssertionError "False is not true")) /\
  (forall (S : Signature) (Env Details : Type)
          (super : list (NDArray.t PrimFloat.float) ->
                   list (NDArray.t PrimFloat.float) -> Details -> Prog S unit)
          (h : Handler S Env) (e : Env) (details : Details),
     (outcome (run h (MobilenetV3Test.compare_results (D := NDArray.binary64) super
                        [Lab.example_candidate] [Lab.example_baseline] details) e)
        = Ok tt <->
      outcome (run h (super [Lab.example_candidate] [Lab.example_baseline] details) e)
        = Ok tt) /\
     (outcome (run h (super [Lab.float64 [3%nat] [0.7002; 0.19998; 0.10001]%Q]
                            [Lab.example_baseline] details) e) = Ok tt ->
      outcome (run h (MobilenetV3Test.compare_results (D := NDArray.binary64) super
                        [Lab.float64 [3%nat] [0.7002; 0.19998; 0.10001]%Q]
                        [Lab.example_baseline] details) e)
        = Raised (AssertionError "False is not true"))) /\
  (exists m : PrimFloat.float,
     let deviations :=
       map (fun p => PrimFloat.abs (PrimFloat.sub (fst p) (snd p)))
           (combine (NDArray.data Lab.example_candidate)
                    (NDArray.data Lab.example_baseline)) in
     hd_error deviations = Some m /\
     forallb (fun d => PrimFloat.leb d m) deviations = true /\
     PrimFloat.leb
       (PrimFloat.abs (PrimFloat.sub m (Lab.double 5e-5%Q)))
       (Lab.double 1e-12%Q) = true).
Proof.
  split; [ intros S; vm_compute; reflexivity | ].
  split; [ intros S; vm_compute; reflexivity | ].
  split.
  - intros S Env Details super h e details. split.
    + unfold MobilenetV3Test.compare_results.
      replace (MobilenetV3Test.assert_isclose _ _ _) with (@Ret S unit tt)
        by (vm_compute; reflexivity).
      now rewrite run_then_ret.
    + intros Hsuper. unfold MobilenetV3Test.compare_results.
      rewrite outcome_bind, Hsuper.
      replace (MobilenetV3Test.assert_isclose _ _ _)
        with (@Throw S unit (AssertionError "False is not true"))
        by (vm_compute; reflexivity).
      reflexivity.
  - eexists. cbv zeta. split; [ vm_compute; reflexivity | ].
    split; vm_compute; reflexivity.
Qed.

(** C2, as stated, fails on the code: [compare_results] reports no
    deviation.  On the example its run is the run of the method of the
    base class, whatever that method, the libraries and the world are:
    it adds no call and returns nothing; with a base class that reports
    nothing, what the run shows is the same for the example, where the
    arrays deviate by [5e-5], and for two equal arrays. *)
Lemma example_scenario_reports_no_deviation :
  (forall (S : Signature) (Env Details : Type)
          (super : list (NDArray.t PrimFloat.float) ->
                   list (NDArray.t PrimFloat.float) -> Details -> Prog S unit)
          (h : Handler S Env) (e : Env) (details : Details),
     run h (MobilenetV3Test.compare_results (D := NDArray.binary64) super
              [Lab.example_candidate] [Lab.example_baseline] details) e =
     run h (super [Lab.example_candidate] [Lab.example_baseline] details) e) /\
  verdict (run Lab.no_lib
             (MobilenetV3Test.compare_results (D := NDArray.binary64) Lab.passes
                [Lab.example_candidate] [Lab.example_baseline] tt) tt) = (Ok tt, []) /\
  verdict (run Lab.no_lib
             (MobilenetV3Test.compare_results (D := NDArray.binary64) Lab.passes
                [Lab.example_baseline] [Lab.example_baseline] tt) tt) = (Ok tt, []).
Proof.
  split; [ | split; vm_compute; reflexivity ].
  intros S Env Details super h e details.
  unfold MobilenetV3Test.compare_results.
  replace (MobilenetV3Test.assert_isclose _ _ _) with (@Ret S unit tt)
    by (vm_compute; reflexivity).
  apply run_then_ret.
Qed.

(** A run for X3: shapes [(2,3)] and [(3,2)]. *)
Lemma shape_mismatch_raises_ValueError_witness :
  exists msg : string,
    outcome (run Lab.no_lib
               (MobilenetV3Test.compare_results (D := NDArray.binary64) Lab.passes
                  [Lab.float64 [2; 3]%nat [1; 1; 1; 1; 1; 1]%Q]
                  [Lab.float64 [3; 2]%nat [1; 1; 1; 1; 1; 1]%Q] tt) tt) =
    Raised (ValueError msg).
Proof.
  apply (@shape_mismatch_raises_ValueError _ NDArray.binary64 Lab.NoLib unit unit
           Lab.passes Lab.no_lib tt tt
           (Lab.float64 [2; 3]%nat [1; 1; 1; 1; 1; 1]%Q)
           (Lab.float64 [3; 2]%nat [1; 1; 1; 1; 1; 1]%Q) [] [] 0%nat 3%nat 2%nat);
    try reflexivity; discriminate.
Defined.

(** Runs for X4: an array of finite values passes against itself, an
    array with a NaN does not. *)
Lemma identical_first_arrays_pass_witness :
  outcome (run Lab.no_lib
             (MobilenetV3Test.compare_results (D := NDArray.binary64) Lab.passes
                [Lab.float64 [2; 2]%nat [0.7; 0.2; 0.1; 1e30]%Q]
                [Lab.float64 [2; 2]%nat [0.7; 0.2; 0.1; 1e30]%Q] tt) tt) = Ok tt /\
  outcome (run Lab.no_lib
             (MobilenetV3Test.compare_results (D := NDArray.binary64) Lab.passes
                [NDArray.mk [2%nat] [PrimFloat.nan; PrimFloat.one]]
                [NDArray.mk [2%nat] [PrimFloat.nan; PrimFloat.one]] tt) tt) <> Ok tt.
Proof.
  split.
  - apply (proj2 (@identical_first_arrays_pass _ NDArray.binary64 Lab.NoLib unit unit
                    Lab.passes Lab.no_lib tt tt
                    (Lab.float64 [2; 2]%nat [0.7; 0.2; 0.1; 1e30]%Q) [] [] eq_refl)).
    split; [ reflexivity | ].
    intros x [<- | [<- | [<- | [<- | []]]]]; vm_compute; reflexivity.
  - intros H.
    apply (proj1 (@identical_first_arrays_pass _ NDArray.binary64 Lab.NoLib unit unit
                    Lab.passes Lab.no_lib tt tt
                    (NDArray.mk [2%nat] [PrimFloat.nan; PrimFloat.one]) [] [] eq_refl))
      in H.
    destruct H as [_ H]. specialize (H PrimFloat.nan (or_introl eq_refl)).
    vm_compute in H. discriminate.
Defined.

(** A run for X5: the example scenario. *)
Lemma same_shape_is_compared_by_position_witness :
  outcome (run Lab.no_lib
             (MobilenetV3Test.compare_results (D := NDArray.binary64) Lab.passes
                [Lab.example_candidate] [Lab.example_baseline] tt) tt) = Ok tt.
Proof.
  apply (proj2 (@same_shape_is_compared_by_position _ NDArray.binary64 Lab.NoLib
                  unit unit Lab.passes Lab.no_lib tt tt
                  Lab.example_candidate Lab.example_baseline [] []
                  eq_refl eq_refl eq_refl)).
  split; [ reflexivity | ].
  intros x y [H | [H | [H | []]]]; injection H as <- <-; vm_compute; reflexivity.
Defined.

(** Runs for X6: the single element [1.] passes against a baseline of
    shape [(2,2)] filled with [1.], the single element [1.00011] does
    not pass against the baseline [[1.]]: in double precision
    [1.00011 - 1.] is above [1e-4 + 1e-5 * 1.]. *)
Lemma single_element_is_broadcast_witness :
  outcome (run Lab.no_lib
             (MobilenetV3Test.compare_results (D := NDArray.binary64) Lab.passes
                [NDArray.mk [1%nat] [PrimFloat.one]]
                [Lab.float64 [2; 2]%nat [1; 1; 1; 1]%Q] tt) tt) = Ok tt /\
  outcome (run Lab.no_lib
             (MobilenetV3Test.compare_results (D := NDArray.binary64) Lab.passes
                [NDArray.mk [1%nat]
                   [Lab.double 1.00011%Q]]
                [Lab.float64 [1%nat] [1%Q]] tt) tt) <> Ok tt.
Proof.
  split.
  - apply (proj2 (@single_element_is_broadcast _ NDArray.binary64 Lab.NoLib unit unit
                    Lab.passes Lab.no_lib tt tt PrimFloat.one
                    (Lab.float64 [2; 2]%nat [1; 1; 1; 1]%Q) [] []
                    eq_refl ltac:(discriminate))).
    split; [ reflexivity | ].
    intros y [<- | [<- | [<- | [<- | []]]]]; vm_compute; reflexivity.
  - intros H.
    apply (proj1 (@single_element_is_broadcast _ NDArray.binary64 Lab.NoLib unit unit
                    Lab.passes Lab.no_lib tt tt
                    (Lab.double 1.00011%Q)
                    (Lab.float64 [1%nat] [1%Q]) [] []
                    eq_refl ltac:(discriminate))) in H.
    destruct H as [_ H].
    specialize (H (Lab.double 1%Q)
                  (or_introl eq_refl)).
    vm_compute in H. discriminate.
Defined.

(** * One-dimensional exact arrays *)

Section OneDimensional.

Local Open Scope Q_scope.

Lemma wf_one_dimensional (F : Type) (l : list F) :
  NDArray.wf (NDArray.mk [List.length l] l).
Proof. unfold NDArray.wf. simpl. now rewrite Nat.mul_1_r. Qed.

Lemma broadcast_one_dimensional (a b : list Q) :
  NDArray.broadcast (NDArray.mk [List.length a] a) (NDArray.mk [List.length b] b) =
  numpy.broadcast a b.
Proof.
  unfold numpy.broadcast.
  destruct (List.length a =? List.length b)%nat eqn:Hab.
  { apply Nat.eqb_eq in Hab.
    apply broadcast_same_shape; try apply wf_one_dimensional.
    simpl. now rewrite Hab. }
  destruct (List.length a =? 1)%nat eqn:Ha.
  { destruct a as [ | x [ | ? ?]]; try discriminate.
    unfold NDArray.broadcast. cbn [NDArray.shape List.length hd].
    rewrite broadcast_shapes_one_l by discriminate.
    rewrite broadcast_to_single by discriminate.
    pose proof (broadcast_to_same (wf_one_dimensional b)) as Hb.
    cbn [NDArray.shape NDArray.data] in Hb. rewrite Hb.
    simpl. now rewrite Nat.mul_1_r. }
  destruct (List.length b =? 1)%nat eqn:Hb.
  { destruct b as [ | y [ | ? ?]]; try discriminate.
    unfold NDArray.broadcast. cbn [NDArray.shape List.length hd].
    rewrite broadcast_shapes_one_r by discriminate.
    rewrite broadcast_to_single by discriminate.
    pose proof (broadcast_to_same (wf_one_dimensional a)) as Ha'.
    cbn [NDArray.shape NDArray.data] in Ha'. rewrite Ha'.
    simpl. now rewrite Nat.mul_1_r. }
  unfold NDArray.broadcast, NDArray.broadcast_shapes. simpl.
  now rewrite Hab, Ha, Hb.
Qed.

(** On one-dimensional arrays of exact values, [numpy.isclose] of
    module [numpy] is [numpy.isclose] of module [NDArray]. *)
Lemma isclose_one_dimensional (a b : numpy.ndarray) (rtol atol : Q) :
  NDArray.isclose (D := NDArray.exact)
    (NDArray.mk [List.length a] a) (NDArray.mk [List.length b] b) rtol atol =
  numpy.isclose a b rtol atol.
Proof.
  unfold NDArray.isclose, numpy.isclose. rewrite broadcast_one_dimensional.
  reflexivity.
Qed.

Lemma assert_isclose_one_dimensional (S : Signature) (atol : Q)
    (iree tflite : MobilenetV3.Results) :
  MobilenetV3Test.assert_isclose (S := S) (D := NDArray.exact) atol
    (map (fun l => NDArray.mk [List.length l] l) iree)
    (map (fun l => NDArray.mk [List.length l] l) tflite) =
  MobilenetV3.assert_isclose atol iree tflite.
Proof.
  unfold MobilenetV3Test.assert_isclose, MobilenetV3.assert_isclose.
  destruct iree as [ | a ra]; [ reflexivity | ].
  destruct tflite as [ | b rb]; [ reflexivity | ].
  simpl. now rewrite isclose_one_dimensional.
Qed.

End OneDimensional.

(** * The torch-mlir script: backend and invoker *)

Section Propagation.

Context {S : Signature} {Env : Type}.
Variable h : Handler S Env.

(** A program that raises nothing of its own ends with an exception
    exactly when its last library call was answered with that
    exception. *)
Lemma no_throw_raised_iff (A : Type) (m : Prog S A) :
  no_throw m ->
  forall (e : Env) (x : Exn),
    outcome (run h m e) = Raised x <->
    exists (t : list (Entry S)) (en : Entry S),
      trace (run h m e) = t ++ [en] /\ raised_by en = Some x.
Proof.
  induction 1 as [a | o k Hk IH]; intros e x; simpl.
  - split; [ discriminate | ].
    intros (t & en & Ht & _). now destruct t.
  - destruct (h o e) as [[v | x'] e']; simpl.
    + rewrite (IH v e' x). split.
      * intros (t & en & Ht & Hen).
        exists (mkEntry o (Ok v) :: t), en. now rewrite Ht.
      * intros (t & en & Ht & Hen). destruct t as [ | en' t']; simpl in Ht.
        -- injection Ht as Hfirst _. subst en. discriminate.
        -- injection Ht as _ Ht. now exists t', en.
    + split.
      * intros Hx. injection Hx as ->.
        now exists [], (mkEntry o (Raised x)).
      * intros (t & en & Ht & Hen). destruct t as [ | en' t']; simpl in Ht.
        -- injection Ht as Hfirst. subst en. cbv in Hen. congruence.
        -- injection Ht as _ Ht. now destruct t'.
Qed.

End Propagation.

Section Backend.

Import Resnet18.

Context {Env : Type}.
Variable h : Handler Sig Env.

Lemma compile_no_throw (module : handle) :
  no_throw (IREELinalgOnTensorsBackend.compile module).
Proof. repeat (constructor; intros). Qed.

Lemma load_no_throw (flatbuffer : handle) :
  no_throw (IREELinalgOnTensorsBackend.load flatbuffer).
Proof. repeat (constructor; intros). Qed.

Lemma compile_and_load_no_throw (module : handle) :
  no_throw (compile_and_load module).
Proof. repeat (constructor; intros). Qed.

(** C6 (amended): [compile] and [load] define and raise no exception of
    their own and wrap none.  [compile] fails exactly when
    [str(imported_module)] or [ireec.compile_str] raises, [load] exactly
    when one of its five runtime calls raises, and in each case the run
    ends with the very exception of that library call. *)
Theorem backend_failures_propagate (module flatbuffer : handle) (e : Env) (x : Exn) :
  let c := run h (IREELinalgOnTensorsBackend.compile module) e in
  let l := run h (IREELinalgOnTensorsBackend.load flatbuffer) e in
  let cl := run h (compile_and_load module) e in
  (outcome c = Raised x <->
   exists t en, trace c = t ++ [en] /\ raised_by en = Some x) /\
  Forall (fun en : Entry Sig => compile_op (entry_op en) = true) (trace c) /\
  (outcome l = Raised x <->
   exists t en, trace l = t ++ [en] /\ raised_by en = Some x) /\
  Forall (fun en : Entry Sig => load_op (entry_op en) = true) (trace l) /\
  (outcome cl = Raised x <->
   exists t en, trace cl = t ++ [en] /\ raised_by en = Some x) /\
  Forall (fun en : Entry Sig =>
            compile_op (entry_op en) || load_op (entry_op en) = true)
         (trace cl).
Proof.
  cbv zeta.
  split; [ apply no_throw_raised_iff, compile_no_throw | ].
  split.
  { simpl. repeat (destruct (h _ _) as [[? | ?] ?]; simpl);
      repeat constructor. }
  split; [ apply no_throw_raised_iff, load_no_throw | ].
  split.
  { simpl. repeat (destruct (h _ _) as [[? | ?] ?]; simpl);
      repeat constructor. }
  split; [ apply no_throw_raised_iff, compile_and_load_no_throw | ].
  simpl. repeat (destruct (h _ _) as [[? | ?] ?]; simpl);
    repeat constructor.
Qed.

(** C9: [__getattr__] returns the closure for every name, without
    looking the name up in the module: it makes no library call and
    cannot raise.  A module that has no function of that name is
    noticed when the closure is called: the call ends with the
    exception of the module's lookup. *)
Theorem getattr_defers_lookup
    (self : IREEInvoker.t) (function_name : string) (e : Env) :
  run h (IREEInvoker.__getattr__ self function_name) e =
    mkRun (Ok (IREEInvoker.invoke self function_name)) [] e /\
  forall (x : Exn) (e' : Env) (args : list Tensor),
    h (module_getitem (IREEInvoker._iree_module self) function_name) e
      = (Raised x, e') ->
    run h (IREEInvoker.invoke self function_name args) e =
      mkRun (Raised x)
        [@mkEntry Sig
           (module_getitem (IREEInvoker._iree_module self) function_name)
           (Raised x)] e'.
Proof.
  split; [ reflexivity | ].
  intros x e' args Hx. simpl.
  change (Resp Sig (module_getitem (IREEInvoker._iree_module self) function_name))
    with handle in *.
  rewrite Hx. reflexivity.
Qed.

End Backend.

(** C6, as stated, fails on the code: with a compiler that rejects its
    input with its own exception, [compile_and_load] ends with that
    exception, which is neither a [CompilationError] nor a [LoadError]. *)
Lemma compile_failure_keeps_library_exception :
  outcome (run Lab.broken_libs (Resnet18.compile_and_load 8%nat) tt) =
    Raised Lab.CompilerToolError /\
  exn_class Lab.CompilerToolError <> "CompilationError" /\
  exn_class Lab.CompilerToolError <> "LoadError".
Proof.
  split; [ reflexivity | split; discriminate ].
Qed.

(** A run for C6: the exception of the compiler ends [compile_and_load]. *)
Lemma backend_failures_propagate_witness :
  exists t en,
    trace (run Lab.broken_libs (Resnet18.compile_and_load 8%nat) tt) = t ++ [en] /\
    raised_by en = Some Lab.CompilerToolError.
Proof.
  apply (proj1 (proj1 (proj2 (proj2 (proj2 (proj2
           (backend_failures_propagate Lab.broken_libs 8%nat 0%nat tt
              Lab.CompilerToolError))))))).
  reflexivity.
Defined.

(** A run for C9: the module has no function [missing]; the attribute
    access returns, the call of the closure raises. *)
Lemma getattr_defers_lookup_witness :
  outcome (run Lab.broken_libs
             (Resnet18.IREEInvoker.__getattr__
                (Resnet18.IREEInvoker.__init__ 14%nat) "missing") tt)
    = Ok (Resnet18.IREEInvoker.invoke (Resnet18.IREEInvoker.__init__ 14%nat) "missing") /\
  outcome (run Lab.broken_libs
             (Resnet18.IREEInvoker.invoke
                (Resnet18.IREEInvoker.__init__ 14%nat) "missing" [Lab.sample]) tt)
    = Raised Lab.KeyError.
Proof.
  destruct (getattr_defers_lookup Lab.broken_libs
              (Resnet18.IREEInvoker.__init__ 14%nat) "missing" tt) as [Hget Hcall].
  split.
  - rewrite Hget. reflexivity.
  - rewrite (Hcall Lab.KeyError tt [Lab.sample] eq_refl). reflexivity.
Defined.

(** * The torch-mlir script: predictions *)

Section Predictions.

Import Resnet18.
Local Open Scope Q_scope.

Context {Env : Type}.
Variable h : Handler Sig Env.

Lemma In_insert_desc (x y : nat * Q) (l : list (nat * Q)) :
  In x (insert_desc y l) <-> x = y \/ In x l.
Proof.
  induction l as [ | z l IH]; simpl.
  - intuition.
  - destruct (Qle_bool (snd z) (snd y)); simpl; [ intuition | ].
    rewrite IH. intuition.
Qed.

Lemma In_sorted (x : nat * Q) (l : list (nat * Q)) :
  In x (fold_right insert_desc [] l) <-> In x l.
Proof.
  induction l as [ | y l IH]; simpl; [ reflexivity | ].
  rewrite In_insert_desc, IH. intuition.
Qed.

(** The sorted indices of a row are positions of the row. *)
Lemma argsort_desc_bound (row : list Q) (idx : nat) :
  In idx (argsort_desc row) -> (idx < List.length row)%nat.
Proof.
  unfold argsort_desc. intros Hin. apply in_map_iff in Hin.
  destruct Hin as [[i q] [<- Hin]]. apply (proj1 (In_sorted _ _)) in Hin.
  apply in_combine_l in Hin. apply in_seq in Hin. simpl. lia.
Qed.

Lemma In_firstn (A : Type) (n : nat) (l : list A) (x : A) :
  In x (firstn n l) -> In x l.
Proof.
  intros Hin. rewrite <- (firstn_skipn n l). apply in_or_app. now left.
Qed.

Lemma getitem_lt (A : Type) (l : list A) (i : nat) :
  (i < List.length l)%nat -> exists x : A, getitem l i = Ok x.
Proof.
  intros Hlt. unfold getitem.
  destruct (nth_error l i) as [x | ] eqn:Hn; [ now exists x | ].
  apply nth_error_None in Hn. lia.
Qed.

Lemma mapM_ret (A B : Type) (F : A -> P B) (l : list A) :
  (forall x : A, In x l -> exists y : B, F x = Ret y) ->
  exists ys : list B, mapM F l = Ret ys.
Proof.
  induction l as [ | x l IH]; intros HF; simpl.
  - now exists [].
  - destruct (HF x (or_introl eq_refl)) as [y ->].
    destruct IH as [ys Hys]; [ intros z Hz; apply HF; now right | ].
    simpl. rewrite Hys. simpl. now exists (y :: ys).
Qed.

Hypothesis libraries_raise_nothing : never_fails h.
Hypothesis softmax_shape : softmax_keeps_shape h.

Lemma outcome_call (A : Type) (o : op) (k : resp o -> P A) (e : Env) :
  exists (v : resp o) (e' : Env),
    outcome (run h (Call (S := Sig) o k) e) = outcome (run h (k v) e').
Proof.
  simpl. pose proof (libraries_raise_nothing o e) as Hok.
  destruct (h o e) as [[v | x] e']; simpl in *; [ | discriminate ].
  now exists v, e'.
Qed.

(** With a label for every class of the first row, the top-3 list is
    computed without an exception. *)
Lemma top3_possibilities_ok (labels : list string)
    (row : list Q) (rest : Logits) (e : Env) :
  (List.length row <= List.length labels)%nat ->
  exists l : list (string * Q),
    outcome (run h (top3_possibilities labels (row :: rest)) e) = Ok l.
Proof.
  intros Hlabels. unfold top3_possibilities. simpl.
  pose proof (libraries_raise_nothing (torch_softmax (row :: rest) 1) e) as Hok.
  pose proof (fun sm => @softmax_shape (row :: rest) sm 1%nat e) as Hshape.
  destruct (h (torch_softmax (row :: rest) 1) e) as [[sm | x] e'];
    simpl in *; [ | discriminate ].
  specialize (Hshape sm eq_refl).
  destruct sm as [ | row' rest']; [ discriminate | ].
  simpl in Hshape. injection Hshape as Hrow _. simpl.
  destruct (@mapM_ret nat (string * Q)
              (fun idx =>
                 label <- lift (getitem labels idx) ;;
                 pct <- lift (getitem (map (fun p => p * 100) row') idx) ;;
                 Ret (label, pct))
              (firstn 3 (argsort_desc row))) as [l Hl].
  { intros idx Hin. apply In_firstn, argsort_desc_bound in Hin.
    destruct (@getitem_lt _ labels idx) as [label ->]; [ lia | ].
    destruct (@getitem_lt _ (map (fun p => p * 100) row') idx) as [pct ->];
      [ rewrite length_map; lia | ].
    now exists (label, pct). }
  exists l.
  change (outcome (run h (mapM
            (fun idx =>
               label <- lift (getitem labels idx) ;;
               pct <- lift (getitem (map (fun p => p * 100) row') idx) ;;
               Ret (label, pct))
            (firstn 3 (argsort_desc row))) e') = Ok l).
  rewrite Hl. reflexivity.
Qed.

Ltac library_answers :=
  cbn [bind ext call];
  match goal with
  | |- outcome (run h (Call ?o ?k) ?e) = _ =>
      let v := fresh "v" in
      let e' := fresh "e" in
      destruct (outcome_call o k e) as (v & e' & ->)
  end.


End Predictions.

(** * Reasoning on all runs of a program *)

Section AllRuns.

Context {S : Signature} {E : Type}.
Variable obs : Entry S -> list E.

Lemma wp_mono (A : Type) (m : Prog S A) (post post' : result A -> list E -> Prop) :
  (forall out u, post out u -> post' out u) ->
  wp obs m post -> wp obs m post'.
Proof.
  revert post post'. induction m as [a | x | o k IH]; intros post post' Himp; simpl.
  - apply Himp.
  - apply Himp.
  - intros [Hx Hv]. split.
    + intros x. apply Himp, Hx.
    + intros v. apply (IH v _ _ (fun out u => Himp out _)), Hv.
Qed.

Lemma wp_bind (A B : Type) (m : Prog S A) (f : A -> Prog S B)
    (post : result B -> list E -> Prop) :
  wp obs m (fun out u =>
              match out with
              | Ok a => wp obs (f a) (fun out' u' => post out' (u ++ u'))
              | Raised x => post (Raised x) u
              end) ->
  wp obs (bind m f) post.
Proof.
  revert post. induction m as [a | x | o k IH]; intros post; simpl.
  - intros H. exact H.
  - intros H. exact H.
  - intros [Hx Hv]. split; [ exact Hx | ].
    intros v. apply IH. eapply wp_mono; [ | apply Hv ].
    intros [a | x] u; simpl; [ | auto ].
    apply wp_mono. intros out' u'. now rewrite app_assoc.
Qed.

(** A property of all runs holds of each run. *)
Lemma wp_run (Env A : Type) (h : Handler S Env) (m : Prog S A)
    (post : result A -> list E -> Prop) :
  wp obs m post ->
  forall e : Env,
    post (outcome (run h m e)) (flat_map obs (trace (run h m e))).
Proof.
  revert post. induction m as [a | x | o k IH]; intros post; simpl.
  - auto.
  - auto.
  - intros [Hx Hv] e. destruct (h o e) as [[v | x] e']; simpl.
    + apply (IH v _ (Hv v) e').
    + rewrite app_nil_r. apply Hx.
Qed.

(** A part of a program whose calls show nothing. *)
Lemma wp_bind_quiet (A B : Type) (m : Prog S A) (f : A -> Prog S B)
    (post : result B -> list E -> Prop) :
  wp obs m (fun _ u => u = []) ->
  (forall x : Exn, post (Raised x) []) ->
  (forall a : A, wp obs (f a) post) ->
  wp obs (bind m f) post.
Proof.
  intros Hquiet Hx Hf. apply wp_bind. eapply wp_mono; [ | exact Hquiet ].
  intros [a | x] u ->; simpl; [ apply Hf | apply Hx ].
Qed.

Lemma wp_lift (A : Type) (r : result A) (post : result A -> list E -> Prop) :
  post r [] -> wp obs (lift r) post.
Proof. destruct r; simpl; auto. Qed.

Lemma wp_mapM_quiet (A B : Type) (F : A -> Prog S B) (l : list A) :
  (forall x : A, wp obs (F x) (fun _ u => u = [])) ->
  wp obs (mapM F l) (fun _ u => u = []).
Proof.
  intros HF. induction l as [ | x l IH]; simpl; [ reflexivity | ].
  apply wp_bind_quiet; [ apply HF | reflexivity | intros y ].
  apply wp_bind_quiet; [ apply IH | reflexivity | intros ys; reflexivity ].
Qed.

End AllRuns.

(** * The torch-mlir script: the input sample *)

Section SampleSharing.

Import Resnet18.

Ltac quiet_call :=
  cbn [wp bind ext call sample_use app];
  split; [ intros ?; reflexivity | intros ?; reflexivity ].

Lemma load_labels_quiet :
  wp sample_use load_labels (fun _ u => u = []).
Proof.
  unfold load_labels.
  apply wp_bind_quiet; [ quiet_call | reflexivity | intros response ].
  apply wp_bind_quiet; [ quiet_call | reflexivity | intros classes_text ].
  apply wp_bind_quiet; [ quiet_call | reflexivity | intros lines ].
  apply wp_mapM_quiet. intros line. quiet_call.
Qed.

Lemma top3_possibilities_quiet (labels : list string) (res : Logits) :
  wp sample_use (top3_possibilities labels res) (fun _ u => u = []).
Proof.
  unfold top3_possibilities. cbv zeta.
  apply wp_bind_quiet; [ quiet_call | reflexivity | intros sm ].
  apply wp_bind_quiet; [ now apply wp_lift | reflexivity | intros row ].
  apply wp_bind_quiet; [ now apply wp_lift | reflexivity | intros first ].
  apply wp_mapM_quiet. intros idx.
  apply wp_bind_quiet; [ now apply wp_lift | reflexivity | intros label ].
  apply wp_bind_quiet; [ now apply wp_lift | reflexivity | intros pct ].
  reflexivity.
Qed.

Ltac ends_early := split; [ cbn; auto | discriminate ].

Ltac library_call :=
  cbn [wp bind ext call sample_use app];
  split; [ intros ?; ends_early | intros ? ].

Lemma script_wp : wp sample_use script sample_shared_by_run.
Proof.
  unfold script, load_and_preprocess_image, TestModule_init,
    ResNet18Module_init, compile_and_load,
    IREELinalgOnTensorsBackend.compile, IREELinalgOnTensorsBackend.load,
    IREEInvoker.__getattr__, IREEInvoker.invoke, predictions,
    TestModule_forward, ResNet18Module_forward, sample_shared_by_run.
  cbv zeta.
  repeat library_call. cbn [bind].
  apply wp_bind_quiet;
    [ apply load_labels_quiet | intros ?; ends_early | intros labels ].
  repeat library_call.
  apply wp_bind_quiet;
    [ apply top3_possibilities_quiet | intros ?; ends_early | intros golden ].
  repeat library_call.
  apply wp_bind_quiet;
    [ apply top3_possibilities_quiet | intros ?; ends_early | intros prediction ].
  repeat library_call.
  cbn. split; [ auto | intros _; eexists; reflexivity ].
Qed.

(** C5: in every run of the script the input sample is generated at most
    once, before any inference; the baseline receives it as it was
    generated, and the candidate receives the very tensor the baseline
    received ([img.numpy()] is a view of it).  A run that ends normally
    has done all three, once each, in this order. *)
Theorem sample_generated_once_and_shared
    (Env : Type) (h : Handler Sig Env) (e : Env) :
  let r := run h script e in
  sample_shared (sample_uses (trace r)) /\
  (outcome r = Ok tt ->
   exists y : Tensor,
     sample_uses (trace r) =
     [Generated (Ok y); BaselineInput (unsqueeze y 0);
      CandidateInput [Tensor_numpy (unsqueeze y 0)]]).
Proof.
  exact (@wp_run Sig SampleUse sample_use Env unit h script
           sample_shared_by_run script_wp e).
Qed.

End SampleSharing.

(** A run for C5, with libraries that raise nothing. *)
Lemma sample_generated_once_and_shared_witness :
  exists y : Resnet18.Tensor,
    sample_uses (trace (run Lab.libs Resnet18.script tt)) =
    [Generated (Ok y); BaselineInput (Resnet18.unsqueeze y 0);
     CandidateInput [Resnet18.Tensor_numpy (Resnet18.unsqueeze y 0)]].
Proof.
  apply (proj2 (sample_generated_once_and_shared Lab.libs tt)).
  reflexivity.
Defined.

(** * The ranking of the two predictions *)

Lemma libs_never_fail : never_fails Lab.libs.
Proof. intros o e. reflexivity. Qed.

Lemma libs_softmax_keeps_shape : softmax_keeps_shape Lab.libs.
Proof. intros res sm dim e H. simpl in H. injection H as <-. reflexivity. Qed.

Lemma const_func_returns_scores (row : list Q) :
  (List.length row <= 4)%nat ->
  returns_scores Lab.libs ["a"; "b"; "c"; "d"] (Lab.const_func [row]).
Proof. intros Hrow x e. exists row, []. split; [ reflexivity | exact Hrow ]. Qed.



(** * More on the closeness assertion *)

Section ClosenessEdges.

Import MobilenetV3.
Local Open Scope Q_scope.

Variables (S : Signature) (Env Details : Type).
Variable super : Results -> Results -> Details -> Prog S unit.
Variable h : Handler S Env.

(** X1: [compare_results] makes the library calls of the method of the
    base class and no other, and leaves the world as that method left
    it; when that method raises, its exception is the outcome and the
    arrays are not looked at. *)
Theorem compare_results_follows_base_class
    (e : Env) (iree tflite : Results) (details : Details) :
  trace (run h (compare_results super iree tflite details) e) =
    trace (run h (super iree tflite details) e) /\
  final (run h (compare_results super iree tflite details) e) =
    final (run h (super iree tflite details) e) /\
  forall x : Exn,
    outcome (run h (super iree tflite details) e) = Raised x ->
    outcome (run h (compare_results super iree tflite details) e) = Raised x.
Proof.
  unfold compare_results, compare_results_atol. rewrite run_bind.
  destruct (assert_isclose_pure S 1e-4 iree tflite) as [[r Hr] _].
  destruct (outcome (run h (super iree tflite details) e)) as [[] | x'].
  - rewrite Hr, run_lift. simpl. rewrite app_nil_r.
    repeat split. discriminate.
  - simpl. repeat split. auto.
Qed.

(** X2: an empty result list makes the assertion raise an [IndexError],
    the candidate's list being read first; no [AssertionError] is
    raised. *)
Theorem empty_results_raise_IndexError
    (e : Env) (details : Details) (a : numpy.ndarray) (ra tflite : Results) :
  (outcome (run h (super [] tflite details) e) = Ok tt ->
   exists msg : string,
     outcome (run h (compare_results super [] tflite details) e) =
       Raised (IndexError msg)) /\
  (outcome (run h (super (a :: ra) [] details) e) = Ok tt ->
   exists msg : string,
     outcome (run h (compare_results super (a :: ra) [] details) e) =
       Raised (IndexError msg)).
Proof.
  unfold compare_results, compare_results_atol.
  split; intros Hsuper; eexists; rewrite outcome_bind, Hsuper; reflexivity.
Qed.

End ClosenessEdges.

(** * More on programs without a [raise] of their own *)

Section NoThrow.

Context {S : Signature}.

Lemma no_throw_bind (A B : Type) (m : Prog S A) (f : A -> Prog S B) :
  no_throw m -> (forall a : A, no_throw (f a)) -> no_throw (bind m f).
Proof.
  intros Hm Hf. induction Hm as [a | o k Hk IH]; simpl.
  - apply Hf.
  - constructor. exact IH.
Qed.

Lemma no_throw_mapM (A B : Type) (F : A -> Prog S B) (l : list A) :
  (forall x : A, no_throw (F x)) -> no_throw (mapM F l).
Proof.
  intros HF. induction l as [ | x l IH]; simpl; [ constructor | ].
  apply no_throw_bind; [ apply HF | intros y ].
  apply no_throw_bind; [ exact IH | intros ys; constructor ].
Qed.

Lemma call_no_throw (o : Op S) : no_throw (call o).
Proof. constructor. intros r. constructor. Qed.

Context {Env : Type}.
Variable h : Handler S Env.

(** The results of a list comprehension, element by element. *)
Lemma mapM_Forall2 (A B : Type) (F : A -> Prog S B) (R : A -> B -> Prop) :
  (forall (x : A) (y : B) (e : Env), outcome (run h (F x) e) = Ok y -> R x y) ->
  forall (l : list A) (ys : list B) (e : Env),
    outcome (run h (mapM F l) e) = Ok ys -> Forall2 R l ys.
Proof.
  intros HF. induction l as [ | x l IH]; intros ys e H; simpl in H.
  - injection H as <-. constructor.
  - rewrite outcome_bind in H.
    destruct (outcome (run h (F x) e)) as [y | ?] eqn:Hy; [ | discriminate ].
    rewrite outcome_bind in H.
    destruct (outcome (run h (mapM F l) (final (run h (F x) e))))
      as [ys' | ?] eqn:Hys; [ | discriminate ].
    simpl in H. injection H as <-.
    constructor; [ now apply (HF x y e) | now apply (IH ys' _ Hys) ].
Qed.

End NoThrow.

(** * The torch-mlir script: downloads *)

Section Downloads.

Import Resnet18.
Local Open Scope Q_scope.

Context {Env : Type}.
Variable h : Handler Sig Env.

Lemma load_and_preprocess_image_no_throw (url : string) :
  no_throw (load_and_preprocess_image url).
Proof. repeat (constructor; intros). Qed.

Lemma load_labels_no_throw : no_throw load_labels.
Proof.
  unfold load_labels.
  repeat (apply no_throw_bind; [ apply (@call_no_throw Sig) | intros ? ]).
  apply no_throw_mapM. intros line. exact (@call_no_throw Sig (str_strip line)).
Qed.

(** X7: when [load_and_preprocess_image] returns, it has made four
    library calls: the download of [url] with the browser's user agent,
    the decoding of the image, its conversion to RGB and the fixed
    preprocessing pipeline; what it returns is the answer of the
    pipeline with a batch dimension of size one put in front, the
    elements as they are. *)
Theorem load_and_preprocess_image_adds_batch_dimension
    (url : string) (e : Env) (t : Tensor) :
  outcome (run h (load_and_preprocess_image url) e) = Ok t ->
  exists (response img rgb : handle) (y : Tensor),
    trace (run h (load_and_preprocess_image url) e) =
      [@mkEntry Sig (requests_get url headers true) (Ok response);
       @mkEntry Sig (Image_open response) (Ok img);
       @mkEntry Sig (Image_convert img "RGB") (Ok rgb);
       @mkEntry Sig
         (Compose_call
            [Resize 256; CenterCrop 224; ToTensor;
             Normalize [0.485; 0.456; 0.406] [0.229; 0.224; 0.225]] rgb)
         (Ok y)] /\
    shape t = 1%nat :: shape y /\ data t = data y.
Proof.
  unfold load_and_preprocess_image. simpl.
  destruct (h (requests_get url headers true) e) as [[response | ?] e1];
    simpl; [ | discriminate ].
  destruct (h (Image_open response) e1) as [[img | ?] e2];
    simpl; [ | discriminate ].
  destruct (h (Image_convert img "RGB") e2) as [[rgb | ?] e3];
    simpl; [ | discriminate ].
  destruct (h (Compose_call _ rgb) e3) as [[y | ?] e4];
    simpl; [ | discriminate ].
  intros H. injection H as <-. now exists response, img, rgb, y.
Qed.

(** X8: the downloads raise nothing of their own and are not tried
    again: [load_and_preprocess_image] and [load_labels] end with an
    exception exactly when their last library call was answered with
    that exception. *)
Theorem download_failures_propagate (url : string) (e : Env) (x : Exn) :
  (outcome (run h (load_and_preprocess_image url) e) = Raised x <->
   exists t en,
     trace (run h (load_and_preprocess_image url) e) = t ++ [en] /\
     raised_by en = Some x) /\
  (outcome (run h load_labels e) = Raised x <->
   exists t en,
     trace (run h load_labels e) = t ++ [en] /\ raised_by en = Some x).
Proof.
  split.
  - apply no_throw_raised_iff, load_and_preprocess_image_no_throw.
  - apply no_throw_raised_iff, load_labels_no_throw.
Qed.

(** The calls of the list comprehension of [load_labels], with their
    answers. *)
Lemma strip_lines_trace (lines labels : list string) (e : Env) :
  outcome (run h (mapM (fun line => ext (str_strip line)) lines) e) = Ok labels ->
  trace (run h (mapM (fun line => ext (str_strip line)) lines) e) =
    map (fun p => @mkEntry Sig (str_strip (fst p)) (Ok (snd p)))
        (combine lines labels) /\
  List.length labels = List.length lines.
Proof.
  revert labels e. induction lines as [ | line lines IH]; intros labels e H.
  - simpl in H. injection H as <-. now split.
  - simpl in H |- *.
    destruct (h (str_strip line) e) as [[label | x] e1]; simpl in H |- *;
      [ | discriminate ].
    rewrite outcome_bind in H. rewrite trace_bind.
    destruct (outcome (run h (mapM (fun line => ext (str_strip line)) lines) e1))
      as [ls | x] eqn:Hls; [ | discriminate ].
    simpl in H. injection H as <-.
    destruct (IH ls e1 Hls) as [Ht Hl]. rewrite Ht. simpl.
    rewrite app_nil_r. split; [ reflexivity | now rewrite Hl ].
Qed.

(** X9: when [load_labels] returns, it has downloaded the class list,
    taken the text of the response, split the text in lines and
    stripped every line, in this order and with no other library call;
    what it returns are the stripped lines: one label per line of the
    downloaded text, in the order of the lines. *)
Theorem load_labels_one_label_per_line (e : Env) (labels : list string) :
  outcome (run h load_labels e) = Ok labels ->
  exists (response : handle) (text : string) (lines : list string),
    trace (run h load_labels e) =
      [@mkEntry Sig
         (requests_get
            "https://raw.githubusercontent.com/cathyzhyi/ml-data/main/imagenet-classes.txt"
            [] true) (Ok response);
       @mkEntry Sig (response_text response) (Ok text);
       @mkEntry Sig (str_splitlines text) (Ok lines)] ++
      map (fun p => @mkEntry Sig (str_strip (fst p)) (Ok (snd p)))
          (combine lines labels) /\
    List.length labels = List.length lines.
Proof.
  unfold load_labels. simpl.
  destruct (h (requests_get _ [] true) e) as [[response | ?] e1];
    simpl; [ | discriminate ].
  destruct (h (response_text response) e1) as [[text | ?] e2];
    simpl; [ | discriminate ].
  destruct (h (str_splitlines text) e2) as [[lines | ?] e3];
    simpl; [ | discriminate ].
  intros H. destruct (strip_lines_trace lines e3 H) as [Ht Hl].
  exists response, text, lines. now rewrite Ht.
Qed.

End Downloads.

(** * The torch-mlir script: the top three *)

Section Ranking.

Import Resnet18.
Local Open Scope Q_scope.

Lemma insert_desc_perm (x : nat * Q) (l : list (nat * Q)) :
  Permutation (insert_desc x l) (x :: l).
Proof.
  induction l as [ | y l IH]; simpl; [ reflexivity | ].
  destruct (Qle_bool (snd y) (snd x)); [ reflexivity | ].
  rewrite IH. apply perm_swap.
Qed.

Lemma sorted_perm (l : list (nat * Q)) :
  Permutation (fold_right insert_desc [] l) l.
Proof.
  induction l as [ | x l IH]; simpl; [ reflexivity | ].
  rewrite insert_desc_perm. now constructor.
Qed.

Lemma insert_desc_sorted (x : nat * Q) (l : list (nat * Q)) :
  StronglySorted pair_ge l -> StronglySorted pair_ge (insert_desc x l).
Proof.
  induction 1 as [ | y l Hl IH Hy]; simpl.
  - repeat constructor.
  - destruct (Qle_bool (snd y) (snd x)) eqn:Hle.
    + apply Qle_bool_iff in Hle. constructor; [ now constructor | ].
      constructor; [ exact Hle | ].
      eapply Forall_impl; [ | exact Hy ].
      intros z Hz. unfold pair_ge in *. eapply Qle_trans; eassumption.
    + assert (Hxy : snd x <= snd y).
      { apply Qlt_le_weak, Qnot_le_lt. intros Hc.
        apply Qle_bool_iff in Hc. congruence. }
      constructor; [ exact IH | ].
      apply Forall_forall. intros z Hz. apply In_insert_desc in Hz.
      destruct Hz as [-> | Hz]; [ exact Hxy | ].
      now apply (proj1 (Forall_forall _ _) Hy).
Qed.

Lemma fold_insert_sorted (l : list (nat * Q)) :
  StronglySorted pair_ge (fold_right insert_desc [] l).
Proof.
  induction l as [ | x l IH]; simpl; [ constructor | ].
  now apply insert_desc_sorted.
Qed.

Lemma map_fst_combine (A B : Type) (l1 : list A) (l2 : list B) :
  List.length l1 = List.length l2 -> map fst (combine l1 l2) = l1.
Proof.
  revert l2. induction l1 as [ | x l1 IH]; intros [ | y l2] Hlen;
    simpl in *; try discriminate; [ reflexivity | ].
  f_equal. apply IH. lia.
Qed.

(** The pairs that are sorted carry the scores of their indices. *)
Lemma in_indexed (row : list Q) (i : nat) (q : Q) :
  In (i, q) (combine (seq 0 (List.length row)) row) -> nth i row 0 = q.
Proof.
  intros Hin. apply (In_nth _ _ (0%nat, 0)) in Hin.
  destruct Hin as (k & Hk & Hnth).
  rewrite length_combine, length_seq, Nat.min_id in Hk.
  rewrite combine_nth in Hnth by now rewrite length_seq.
  rewrite seq_nth in Hnth by exact Hk.
  injection Hnth as <- <-. reflexivity.
Qed.

Lemma StronglySorted_app_inv (A : Type) (R : A -> A -> Prop) (l1 l2 : list A) :
  StronglySorted R (l1 ++ l2) ->
  forall x y : A, In x l1 -> In y l2 -> R x y.
Proof.
  induction l1 as [ | z l1 IH]; simpl; intros Hs x y Hx Hy; [ contradiction | ].
  inversion Hs as [ | ? ? Hs' Hall]; subst.
  destruct Hx as [-> | Hx]; [ | now apply IH ].
  apply (proj1 (Forall_forall _ _) Hall). apply in_or_app. now right.
Qed.

Lemma StronglySorted_map_in (A B : Type) (R : A -> A -> Prop)
    (R' : B -> B -> Prop) (f : A -> B) (l : list A) :
  (forall x y : A, In x l -> In y l -> R x y -> R' (f x) (f y)) ->
  StronglySorted R l -> StronglySorted R' (map f l).
Proof.
  intros Hf Hs. induction Hs as [ | x l Hs IH Hall]; simpl; constructor.
  - apply IH. intros y z Hy Hz. apply Hf; now right.
  - apply Forall_forall. intros b Hb. apply in_map_iff in Hb.
    destruct Hb as (y & <- & Hy).
    apply Hf; [ now left | now right | ].
    now apply (proj1 (Forall_forall _ _) Hall).
Qed.

Lemma argsort_desc_perm (row : list Q) :
  Permutation (argsort_desc row) (seq 0 (List.length row)).
Proof.
  unfold argsort_desc.
  rewrite (Permutation_map fst (sorted_perm _)).
  rewrite map_fst_combine by now rewrite length_seq.
  reflexivity.
Qed.

Lemma argsort_desc_length (row : list Q) :
  List.length (argsort_desc row) = List.length row.
Proof.
  rewrite (Permutation_length (argsort_desc_perm row)). apply length_seq.
Qed.

Lemma argsort_desc_sorted (row : list Q) :
  StronglySorted (score_ge row) (argsort_desc row).
Proof.
  unfold argsort_desc.
  apply StronglySorted_map_in with (R := pair_ge); [ | apply fold_insert_sorted ].
  intros [i p] [j q] Hi Hj Hpq.
  apply (proj1 (In_sorted _ _)) in Hi. apply (proj1 (In_sorted _ _)) in Hj.
  apply in_indexed in Hi. apply in_indexed in Hj.
  unfold score_ge, pair_ge in *. simpl in *. now rewrite Hi, Hj.
Qed.

(** X10: the indices [top3_possibilities] reads the labels at.  The
    sorted indices of a row are its positions, each once, by descending
    score; the first three of them are therefore distinct positions
    whose scores are not below the score of any other position. *)
Theorem top3_indexes_have_highest_scores (row : list Q) :
  let top := firstn 3 (argsort_desc row) in
  Permutation (argsort_desc row) (seq 0 (List.length row)) /\
  StronglySorted (score_ge row) (argsort_desc row) /\
  NoDup top /\
  List.length top = Nat.min 3 (List.length row) /\
  forall i j : nat,
    In i top -> (j < List.length row)%nat -> ~ In j top -> score_ge row i j.
Proof.
  cbv zeta.
  pose proof (argsort_desc_perm row) as Hperm.
  pose proof (argsort_desc_sorted row) as Hsorted.
  assert (Hnodup : NoDup (argsort_desc row)).
  { apply (Permutation_NoDup (Permutation_sym Hperm)), seq_NoDup. }
  split; [ exact Hperm | ]. split; [ exact Hsorted | ].
  rewrite <- (firstn_skipn 3 (argsort_desc row)) in Hnodup, Hsorted.
  split; [ now apply NoDup_app_remove_r in Hnodup | ].
  split; [ now rewrite length_firstn, argsort_desc_length | ].
  intros i j Hi Hj Hnot.
  apply (@StronglySorted_app_inv _ _ _ _ Hsorted); [ exact Hi | ].
  assert (Hin : In j (argsort_desc row)).
  { apply (Permutation_in _ (Permutation_sym Hperm)), in_seq. lia. }
  rewrite <- (firstn_skipn 3 (argsort_desc row)) in Hin.
  apply in_app_or in Hin. tauto.
Qed.

End Ranking.

Section Top3.

Import Resnet18.
Local Open Scope Q_scope.

Context {Env : Type}.
Variable h : Handler Sig Env.

Lemma run_ext_ok (o : op) (v : resp o) (e e' : Env) :
  h o e = (Ok v, e') ->
  run h (ext o) e = mkRun (Ok v) [@mkEntry Sig o (Ok v)] e'.
Proof.
  intros H. unfold ext, call. simpl.
  change (Resp Sig o) with (resp o). rewrite H. reflexivity.
Qed.

(** One element of the comprehension of [top3_possibilities]: it returns
    the label and the percentage at [idx], or raises an [IndexError]. *)
Lemma top3_entry (labels : list string) (percentage : list Q) (idx : nat) :
  (exists label pct,
     nth_error labels idx = Some label /\ nth_error percentage idx = Some pct /\
     (label <- lift (getitem labels idx) ;;
      pct <- lift (getitem percentage idx) ;;
      Ret (label, pct)) = Ret (S := Sig) (label, pct)) \/
  ((nth_error labels idx = None \/ nth_error percentage idx = None) /\
   (label <- lift (getitem labels idx) ;;
    pct <- lift (getitem percentage idx) ;;
    Ret (label, pct)) =
   Throw (S := Sig) (A := string * Q) (IndexError "list index out of range")).
Proof.
  unfold getitem.
  destruct (nth_error labels idx) as [label | ]; simpl.
  - destruct (nth_error percentage idx) as [pct | ]; simpl.
    + left. now exists label, pct.
    + right. auto.
  - right. auto.
Qed.

Lemma mapM_pure (A B : Type) (F : A -> P B) (E : Exn) (l : list A) :
  (forall x : A, (exists y : B, F x = Ret y) \/ F x = Throw E) ->
  (exists ys : list B, mapM F l = Ret ys) \/ mapM F l = Throw E.
Proof.
  intros HF. induction l as [ | x l IH]; simpl; [ left; now exists [] | ].
  destruct (HF x) as [[y ->] | ->]; simpl; [ | now right ].
  destruct IH as [[ys ->] | ->]; simpl; [ left; now exists (y :: ys) | now right ].
Qed.

Lemma mapM_throws (A B : Type) (F : A -> P B) (E : Exn) (l : list A) (x : A) :
  (forall z : A, (exists y : B, F z = Ret y) \/ F z = Throw E) ->
  In x l -> F x = Throw E -> mapM F l = Throw E.
Proof.
  intros HF Hin Hx. induction l as [ | z l IH]; simpl in *; [ contradiction | ].
  destruct (HF z) as [[y Hz] | Hz]; rewrite Hz; simpl; [ | reflexivity ].
  destruct Hin as [-> | Hin]; [ congruence | ].
  rewrite (IH Hin). reflexivity.
Qed.

Lemma top3_entry_pure (labels : list string) (percentage : list Q) (z : nat) :
  (exists y : string * Q,
     (label <- lift (getitem labels z) ;;
      pct <- lift (getitem percentage z) ;;
      Ret (label, pct)) = Ret (S := Sig) y) \/
  (label <- lift (getitem labels z) ;;
   pct <- lift (getitem percentage z) ;;
   Ret (label, pct)) =
  Throw (S := Sig) (A := string * Q) (IndexError "list index out of range").
Proof.
  destruct (top3_entry labels percentage z) as [(label & pct & _ & _ & ->) | [_ ->]];
    [ left; now exists (label, pct) | now right ].
Qed.

Ltac after_softmax Hsm :=
  unfold top3_possibilities; cbv zeta;
  rewrite outcome_bind, (run_ext_ok Hsm); cbn [outcome final];
  rewrite outcome_bind, run_lift; cbn [outcome final].

Ltac first_rows :=
  cbn [getitem nth_error];
  rewrite outcome_bind, run_lift;
  cbn [outcome final sort_indexes map getitem nth_error].

(** X11: what [top3_possibilities] returns.  For each of the first
    three sorted indices of the first row of scores, in their order, it
    gives the label at that index and one hundred times the element at
    that index of the first row of the library's softmax; it returns
    three entries, or as many as the row has classes. *)
Theorem top3_possibilities_content
    (labels : list string) (res : Logits) (e : Env) (l : list (string * Q)) :
  outcome (run h (top3_possibilities labels res) e) = Ok l ->
  exists (row srow : list Q) (sm : Logits),
    hd_error res = Some row /\
    fst (h (torch_softmax res 1) e) = Ok sm /\ hd_error sm = Some srow /\
    Forall2 (fun idx entry =>
               nth_error labels idx = Some (fst entry) /\
               exists p : Q, nth_error srow idx = Some p /\ snd entry = p * 100)
            (firstn 3 (argsort_desc row)) l /\
    List.length l = Nat.min 3 (List.length row).
Proof.
  destruct (h (torch_softmax res 1) e) as [[sm | x] e1] eqn:Hsm.
  2:{ unfold top3_possibilities. cbv zeta. rewrite outcome_bind. simpl.
      change (Resp Sig (torch_softmax res 1)) with Logits.
      rewrite Hsm. discriminate. }
  after_softmax Hsm.
  destruct sm as [ | srow srest]; [ discriminate | ]. first_rows.
  destruct res as [ | row rest]; [ discriminate | ].
  cbn [map getitem nth_error outcome final]. intros H.
  assert (HF : Forall2 (fun idx entry =>
                 nth_error labels idx = Some (fst entry) /\
                 exists p : Q, nth_error srow idx = Some p /\ snd entry = p * 100)
               (firstn 3 (argsort_desc row)) l).
  { eapply (@mapM_Forall2 Sig Env h); [ | exact H ].
    intros idx entry e' He. cbv beta in He.
    destruct (top3_entry labels (map (fun p => p * 100) srow) idx)
      as [(label & pct & Hl & Hp & Heq) | [_ Heq]];
      rewrite Heq in He; [ | discriminate ].
    simpl in He. injection He as <-. simpl. split; [ exact Hl | ].
    rewrite nth_error_map in Hp.
    destruct (nth_error srow idx) as [p | ]; [ | discriminate ].
    simpl in Hp. injection Hp as <-. now exists p. }
  exists row, srow, (srow :: srest). repeat split; try assumption.
  rewrite <- (Forall2_length HF), length_firstn, argsort_desc_length.
  reflexivity.
Qed.

(** X12: a missing label.  When one of the first three sorted indices
    has no label, [top3_possibilities] raises an [IndexError]. *)
Theorem missing_label_raises_IndexError
    (labels : list string) (row srow : list Q) (rest srest : Logits)
    (e e1 : Env) (idx : nat) :
  h (torch_softmax (row :: rest) 1) e = (Ok (srow :: srest), e1) ->
  In idx (firstn 3 (argsort_desc row)) ->
  (List.length labels <= idx)%nat ->
  outcome (run h (top3_possibilities labels (row :: rest)) e) =
    Raised (IndexError "list index out of range").
Proof.
  intros Hsm Hin Hshort. after_softmax Hsm. first_rows.
  rewrite (@mapM_throws _ _ _ (IndexError "list index out of range") _ idx);
    [ reflexivity | intros z; apply top3_entry_pure | exact Hin | ].
  destruct (top3_entry labels (map (fun p => p * 100) srow) idx)
    as [(label & pct & Hl & _) | [_ Heq]]; [ | exact Heq ].
  apply nth_error_None in Hshort. congruence.
Qed.

(** X13: an empty batch.  On scores without a row,
    [top3_possibilities] raises an [IndexError], whatever the softmax
    answers. *)
Theorem empty_batch_raises_IndexError
    (labels : list string) (sm : Logits) (e e1 : Env) :
  h (torch_softmax [] 1) e = (Ok sm, e1) ->
  exists msg : string,
    outcome (run h (top3_possibilities labels []) e) = Raised (IndexError msg).
Proof.
  intros Hsm. eexists. after_softmax Hsm.
  destruct sm as [ | srow srest]; [ reflexivity | ]. first_rows.
  reflexivity.
Qed.

(** X14: once the softmax has answered, [top3_possibilities] makes no
    further library call and the only exception it can end with is the
    [IndexError] of an index out of range. *)
Theorem top3_possibilities_raises_IndexError_only
    (labels : list string) (res sm : Logits) (e e1 : Env) (x : Exn) :
  h (torch_softmax res 1) e = (Ok sm, e1) ->
  trace (run h (top3_possibilities labels res) e) =
    [@mkEntry Sig (torch_softmax res 1) (Ok sm)] /\
  (outcome (run h (top3_possibilities labels res) e) = Raised x ->
   exn_class x = "IndexError").
Proof.
  intros Hsm. unfold top3_possibilities. cbv zeta.
  rewrite trace_bind, outcome_bind, (run_ext_ok Hsm). cbn [outcome final trace].
  rewrite trace_bind, outcome_bind, run_lift. cbn [outcome final trace].
  destruct sm as [ | srow srest]; cbn [getitem nth_error app].
  { split; [ reflexivity | intros H; now injection H as <- ]. }
  rewrite trace_bind, outcome_bind, run_lift.
  cbn [outcome final trace sort_indexes].
  destruct res as [ | row rest]; cbn [sort_indexes map getitem nth_error app].
  { split; [ reflexivity | intros H; now injection H as <- ]. }
  match goal with
  | |- context [mapM ?F ?l] =>
      destruct (@mapM_pure nat (string * Q) F
                  (IndexError "list index out of range") l)
        as [[ys ->] | ->];
        [ intros z; apply (top3_entry_pure labels (map (fun p => p * 100) srow) z)
        | | ]
  end.
  - split; [ reflexivity | discriminate ].
  - split; [ reflexivity | intros H; now injection H as <- ].
Qed.

(** X15: a failure on the baseline's side ends [predictions] before
    the candidate is run.  When the baseline inference raises, or the
    top-3 list of its scores cannot be computed, [predictions] ends with
    that exception and has made the library calls of the baseline's side
    only: [jit_func] is not called and nothing is printed. *)
Theorem predictions_stops_at_baseline_failure
    (global_labels labels : list string)
    (torch_func jit_func : Tensor -> P Logits) (img : Tensor) (e : Env) (x : Exn) :
  let b := run h (torch_func img) e in
  (outcome b = Raised x ->
   run h (predictions global_labels torch_func jit_func img labels) e =
     mkRun (Raised x) (trace b) (final b)) /\
  (forall res : Logits,
     outcome b = Ok res ->
     let t := run h (top3_possibilities global_labels res) (final b) in
     outcome t = Raised x ->
     run h (predictions global_labels torch_func jit_func img labels) e =
       mkRun (Raised x) (trace b ++ trace t) (final t)).
Proof.
  cbv zeta. unfold predictions. rewrite run_bind. split.
  - intros ->. reflexivity.
  - intros res -> Ht. cbv zeta. rewrite run_bind, Ht. reflexivity.
Qed.

End Top3.

(** * The torch-mlir script: order of the steps *)

Ltac quiet_call_by red :=
  red; split; [ intros ?; reflexivity | intros ?; reflexivity ].

Ltac load_labels_quiet_by red :=
  unfold Resnet18.load_labels;
  do 3 (apply wp_bind_quiet; [ quiet_call_by red | reflexivity | intros ? ]);
  apply wp_mapM_quiet; intros ?; quiet_call_by red.

Ltac top3_quiet_by red :=
  unfold Resnet18.top3_possibilities; cbv zeta;
  apply wp_bind_quiet; [ quiet_call_by red | reflexivity | intros ? ];
  do 2 (apply wp_bind_quiet; [ now apply wp_lift | reflexivity | intros ? ]);
  apply wp_mapM_quiet; intros ?;
  do 2 (apply wp_bind_quiet; [ now apply wp_lift | reflexivity | intros ? ]);
  reflexivity.

Ltac unfold_script :=
  unfold Resnet18.script, Resnet18.load_and_preprocess_image,
    Resnet18.TestModule_init, Resnet18.ResNet18Module_init,
    Resnet18.compile_and_load,
    Resnet18.IREELinalgOnTensorsBackend.compile,
    Resnet18.IREELinalgOnTensorsBackend.load,
    Resnet18.IREEInvoker.__getattr__, Resnet18.IREEInvoker.invoke,
    Resnet18.predictions, Resnet18.TestModule_forward,
    Resnet18.ResNet18Module_forward;
  cbv zeta.

(** The script, step by step: [call] treats a library call (its
    failure ends the run: [ends]), [labels] and [top3] the two parts
    that loop. *)
Ltac walk_script red ends labels top3 :=
  unfold_script;
  repeat (red; split; [ intros ?; ends | intros ? ]);
  cbn [bind];
  apply wp_bind_quiet; [ labels | intros ?; ends | intros ? ];
  repeat (red; split; [ intros ?; ends | intros ? ]);
  apply wp_bind_quiet; [ top3 | intros ?; ends | intros ? ];
  repeat (red; split; [ intros ?; ends | intros ? ]);
  apply wp_bind_quiet; [ top3 | intros ?; ends | intros ? ];
  repeat (red; split; [ intros ?; ends | intros ? ]).

Section ScriptOrder.

Import Resnet18.

Context {Env : Type}.
Variable h : Handler Sig Env.

Ltac red_model := cbn [wp bind ext call app entry_op model_use].

Lemma load_labels_quiet_model : wp model_use load_labels (fun _ u => u = []).
Proof. load_labels_quiet_by red_model. Qed.

Lemma top3_quiet_model (labels : list string) (res : Logits) :
  wp model_use (top3_possibilities labels res) (fun _ u => u = []).
Proof. top3_quiet_by red_model. Qed.

Lemma script_model_wp : wp model_use script (fun _ u => eval_mode_first u).
Proof.
  walk_script red_model ltac:(cbn; auto)
    ltac:(apply load_labels_quiet_model) ltac:(apply top3_quiet_model).
  cbn. auto.
Qed.

(** X17: the baseline runs in evaluation mode.  In every run of the
    script the torchvision model is put in evaluation mode
    ([train(False)]) when it is built, never back in training mode, and
    the one inference of the baseline is run on that model after that. *)
Theorem baseline_runs_in_eval_mode (e : Env) :
  eval_mode_first (flat_map model_use (trace (run h script e))).
Proof.
  exact (@wp_run Sig ModelUse model_use Env unit h script
           (fun _ u => eval_mode_first u) script_model_wp e).
Qed.

Ltac red_step := cbn [wp bind ext call app step_of is_ok].

Lemma load_labels_quiet_step : wp step_of load_labels (fun _ u => u = []).
Proof. load_labels_quiet_by red_step. Qed.

Lemma top3_quiet_step (labels : list string) (res : Logits) :
  wp step_of (top3_possibilities labels res) (fun _ u => u = []).
Proof. top3_quiet_by red_step. Qed.

Lemma script_step_wp : wp step_of script (fun _ u => acts_after_load u).
Proof.
  walk_script red_step ltac:(cbn; auto)
    ltac:(apply load_labels_quiet_step) ltac:(apply top3_quiet_step).
  cbn. auto.
Qed.

(** X18: nothing is inferred or printed before the compiled module is
    loaded.  In every run of the script, the inference of the baseline,
    the lookup and the call of the candidate and every line on the
    standard output come after [load] has got the module from the
    runtime; a run in which the compiler or the runtime raises does none
    of them. *)
Theorem inference_waits_for_load (e : Env) :
  acts_after_load (flat_map step_of (trace (run h script e))).
Proof.
  exact (@wp_run Sig Step step_of Env unit h script
           (fun _ u => acts_after_load u) script_step_wp e).
Qed.

Ltac red_shown := cbn [wp bind ext call app entry_op shown].

Lemma load_labels_quiet_shown : wp shown load_labels (fun _ u => u = []).
Proof. load_labels_quiet_by red_shown. Qed.

Lemma top3_quiet_shown (labels : list string) (res : Logits) :
  wp shown (top3_possibilities labels res) (fun _ u => u = []).
Proof. top3_quiet_by red_shown. Qed.

Ltac shown_ends :=
  split;
  [ discriminate
  | first
      [ intros H; cbn in H; intuition discriminate
      | intros _; do 2 eexists; split;
        [ reflexivity | cbn; intuition discriminate ] ] ].

Lemma script_shown_wp : wp shown script report_order.
Proof.
  unfold report_order.
  walk_script red_shown shown_ends
    ltac:(apply load_labels_quiet_shown) ltac:(apply top3_quiet_shown).
  cbn [wp app]. split.
  - intros _. do 2 eexists. reflexivity.
  - intros _. do 2 eexists. split; [ reflexivity | cbn; intuition discriminate ].
Qed.


(** X16: what [compile_and_load] has done when it returns.  The source
    compiled is the text of the given module, for the one target
    [dylib-llvm-aot]; the flatbuffer the compiler answered with is the
    one made into a VM module; that module is added to a context of the
    [dylib] driver, and the invoker wraps the module that this context
    then gives. *)
Theorem compile_and_load_wires_compiled_module
    (module : handle) (e : Env) (inv : IREEInvoker.t) :
  outcome (run h (compile_and_load module) e) = Ok inv ->
  exists (source : string) (flatbuffer vm_module config ctx m : handle),
    trace (run h (compile_and_load module) e) =
      [@mkEntry Sig (module_str module) (Ok source);
       @mkEntry Sig (compile_str source ["dylib-llvm-aot"]) (Ok flatbuffer);
       @mkEntry Sig (VmModule_from_flatbuffer flatbuffer) (Ok vm_module);
       @mkEntry Sig (Config_new "dylib") (Ok config);
       @mkEntry Sig (SystemContext_new config) (Ok ctx);
       @mkEntry Sig (add_vm_module ctx vm_module) (Ok tt);
       @mkEntry Sig (ctx_modules_module ctx) (Ok m)] /\
    inv = IREEInvoker.__init__ m.
Proof.
  unfold compile_and_load, IREELinalgOnTensorsBackend.compile,
    IREELinalgOnTensorsBackend.load. simpl.
  destruct (h (module_str module) e) as [[source | ?] e1];
    simpl; [ | discriminate ].
  destruct (h (compile_str source _) e1) as [[flatbuffer | ?] e2];
    simpl; [ | discriminate ].
  destruct (h (VmModule_from_flatbuffer flatbuffer) e2) as [[vm_module | ?] e3];
    simpl; [ | discriminate ].
  destruct (h (Config_new "dylib") e3) as [[config | ?] e4];
    simpl; [ | discriminate ].
  destruct (h (SystemContext_new config) e4) as [[ctx | ?] e5];
    simpl; [ | discriminate ].
  destruct (h (add_vm_module ctx vm_module) e5) as [[[] | ?] e6];
    simpl; [ | discriminate ].
  destruct (h (ctx_modules_module ctx) e6) as [[m | ?] e7];
    simpl; [ | discriminate ].
  intros H. injection H as <-.
  now exists source, flatbuffer, vm_module, config, ctx, m.
Qed.

End ScriptOrder.

(** * Runs for the properties above *)

(** A run for X1: the base class rejects the results. *)
Lemma compare_results_follows_base_class_witness :
  outcome (run Lab.no_lib
             (MobilenetV3.compare_results Lab.reject [[1]] [[1]] tt) tt) =
  Raised (AssertionError "Number of results do not match").
Proof.
  apply (proj2 (proj2 (@compare_results_follows_base_class Lab.NoLib unit unit
                         Lab.reject Lab.no_lib tt [[1]] [[1]] tt))).
  reflexivity.
Defined.

(** Runs for X2: no candidate result, and no baseline result. *)
Lemma empty_results_raise_IndexError_witness :
  (exists msg : string,
     outcome (run Lab.no_lib
                (MobilenetV3.compare_results Lab.accept [] [[1]] tt) tt) =
       Raised (IndexError msg)) /\
  (exists msg : string,
     outcome (run Lab.no_lib
                (MobilenetV3.compare_results Lab.accept [[1]] [] tt) tt) =
       Raised (IndexError msg)).
Proof.
  destruct (@empty_results_raise_IndexError Lab.NoLib unit unit Lab.accept
              Lab.no_lib tt tt [1] [] [[1]]) as [H1 _].
  destruct (@empty_results_raise_IndexError Lab.NoLib unit unit Lab.accept
              Lab.no_lib tt tt [1] [] []) as [_ H2].
  split; [ apply H1 | apply H2 ]; reflexivity.
Defined.

(** A run for X7. *)
Lemma load_and_preprocess_image_adds_batch_dimension_witness :
  exists (response img rgb : Resnet18.handle) (y : Resnet18.Tensor),
    trace (run Lab.libs (Resnet18.load_and_preprocess_image Resnet18.image_url) tt) =
      [@mkEntry Resnet18.Sig
         (Resnet18.requests_get Resnet18.image_url Resnet18.headers true)
         (Ok response);
       @mkEntry Resnet18.Sig (Resnet18.Image_open response) (Ok img);
       @mkEntry Resnet18.Sig (Resnet18.Image_convert img "RGB") (Ok rgb);
       @mkEntry Resnet18.Sig
         (Resnet18.Compose_call
            [Resnet18.Resize 256; Resnet18.CenterCrop 224; Resnet18.ToTensor;
             Resnet18.Normalize [0.485; 0.456; 0.406] [0.229; 0.224; 0.225]] rgb)
         (Ok y)] /\
    Resnet18.shape Lab.sample = 1%nat :: Resnet18.shape y /\
    Resnet18.data Lab.sample = Resnet18.data y.
Proof.
  apply (@load_and_preprocess_image_adds_batch_dimension unit Lab.libs
           Resnet18.image_url tt Lab.sample).
  reflexivity.
Defined.

(** A run for X9: four lines, four labels. *)
Lemma load_labels_one_label_per_line_witness :
  exists (response : Resnet18.handle) (text : string) (lines : list string),
    trace (run Lab.libs Resnet18.load_labels tt) =
      [@mkEntry Resnet18.Sig
         (Resnet18.requests_get
            "https://raw.githubusercontent.com/cathyzhyi/ml-data/main/imagenet-classes.txt"
            [] true) (Ok response);
       @mkEntry Resnet18.Sig (Resnet18.response_text response) (Ok text);
       @mkEntry Resnet18.Sig (Resnet18.str_splitlines text) (Ok lines)] ++
      map (fun p => @mkEntry Resnet18.Sig (Resnet18.str_strip (fst p)) (Ok (snd p)))
          (combine lines ["a"; "b"; "c"; "d"]) /\
    List.length ["a"; "b"; "c"; "d"] = List.length lines.
Proof.
  apply (@load_labels_one_label_per_line unit Lab.libs tt ["a"; "b"; "c"; "d"]).
  reflexivity.
Defined.

(** A run for X10: five scores; index 3 is among the first three, index
    0 is not. *)
Lemma top3_indexes_have_highest_scores_witness :
  score_ge [0.1; 0.5; 0.3; 0.9; 0.2] 3 0.
Proof.
  apply (proj2 (proj2 (proj2 (proj2
           (top3_indexes_have_highest_scores [0.1; 0.5; 0.3; 0.9; 0.2]))))).
  - cbv. auto.
  - simpl. lia.
  - intros H. cbv in H. destruct H as [H | [H | [H | []]]]; discriminate.
Defined.

(** A run for X11: three entries for the four scores of the baseline. *)
Lemma top3_possibilities_content_witness :
  exists (row srow : list Q) (sm : Resnet18.Logits),
    hd_error Lab.golden_scores = Some row /\
    fst (Lab.libs (Resnet18.torch_softmax Lab.golden_scores 1) tt) = Ok sm /\
    hd_error sm = Some srow /\
    Forall2 (fun idx entry =>
               nth_error ["a"; "b"; "c"; "d"] idx = Some (fst entry) /\
               exists p : Q, nth_error srow idx = Some p /\ snd entry = (p * 100)%Q)
            (firstn 3 (Resnet18.argsort_desc row))
            [("d", (0.25003 * 100)%Q); ("c", (0.25002 * 100)%Q);
             ("b", (0.25001 * 100)%Q)] /\
    List.length [("d", (0.25003 * 100)%Q); ("c", (0.25002 * 100)%Q);
                 ("b", (0.25001 * 100)%Q)] = Nat.min 3 (List.length row).
Proof.
  apply (@top3_possibilities_content unit Lab.libs ["a"; "b"; "c"; "d"]
           Lab.golden_scores tt).
  reflexivity.
Defined.

(** A run for X12: one label for four classes. *)
Lemma missing_label_raises_IndexError_witness :
  outcome (run Lab.libs (Resnet18.top3_possibilities ["a"] Lab.golden_scores) tt) =
  Raised (IndexError "list index out of range").
Proof.
  apply (@missing_label_raises_IndexError unit Lab.libs ["a"]
           [0.25; 0.25001; 0.25002; 0.25003]%Q
           [0.25; 0.25001; 0.25002; 0.25003]%Q [] [] tt tt 3%nat).
  - reflexivity.
  - cbv. auto.
  - simpl. lia.
Defined.

(** A run for X13. *)
Lemma empty_batch_raises_IndexError_witness :
  exists msg : string,
    outcome (run Lab.libs (Resnet18.top3_possibilities ["a"; "b"; "c"; "d"] []) tt) =
    Raised (IndexError msg).
Proof.
  apply (@empty_batch_raises_IndexError unit Lab.libs ["a"; "b"; "c"; "d"] [] tt tt).
  reflexivity.
Defined.

(** A run for X14: one label for four classes. *)
Lemma top3_possibilities_raises_IndexError_only_witness :
  trace (run Lab.libs (Resnet18.top3_possibilities ["a"] Lab.golden_scores) tt) =
  [@mkEntry Resnet18.Sig (Resnet18.torch_softmax Lab.golden_scores 1)
     (Ok Lab.golden_scores)].
Proof.
  apply (proj1 (@top3_possibilities_raises_IndexError_only unit Lab.libs ["a"]
                  Lab.golden_scores Lab.golden_scores tt tt
                  (IndexError "list index out of range") eq_refl)).
Defined.

(** Runs for X15: a baseline that raises, and a baseline without
    scores. *)
Lemma predictions_stops_at_baseline_failure_witness :
  trace (run Lab.libs
           (Resnet18.predictions ["a"; "b"; "c"; "d"]
              (Lab.raising_func Lab.KeyError) (Lab.const_func Lab.jit_scores)
              Lab.sample []) tt) = [] /\
  outcome (run Lab.libs
             (Resnet18.predictions ["a"; "b"; "c"; "d"]
                (Lab.const_func []) (Lab.const_func Lab.jit_scores)
                Lab.sample []) tt) =
    Raised (IndexError "list index out of range").
Proof.
  split.
  - rewrite (proj1 (@predictions_stops_at_baseline_failure unit Lab.libs
                      ["a"; "b"; "c"; "d"] [] (Lab.raising_func Lab.KeyError)
                      (Lab.const_func Lab.jit_scores) Lab.sample tt Lab.KeyError)
               eq_refl).
    reflexivity.
  - rewrite (proj2 (@predictions_stops_at_baseline_failure unit Lab.libs
                      ["a"; "b"; "c"; "d"] [] (Lab.const_func [])
                      (Lab.const_func Lab.jit_scores) Lab.sample tt
                      (IndexError "list index out of range"))
               [] eq_refl eq_refl).
    reflexivity.
Defined.

(** A run for X16. *)
Lemma compile_and_load_wires_compiled_module_witness :
  exists (source : string)
         (flatbuffer vm_module config ctx m : Resnet18.handle),
    trace (run Lab.libs (Resnet18.compile_and_load 8%nat) tt) =
      [@mkEntry Resnet18.Sig (Resnet18.module_str 8%nat) (Ok source);
       @mkEntry Resnet18.Sig
         (Resnet18.compile_str source ["dylib-llvm-aot"]) (Ok flatbuffer);
       @mkEntry Resnet18.Sig
         (Resnet18.VmModule_from_flatbuffer flatbuffer) (Ok vm_module);
       @mkEntry Resnet18.Sig (Resnet18.Config_new "dylib") (Ok config);
       @mkEntry Resnet18.Sig (Resnet18.SystemContext_new config) (Ok ctx);
       @mkEntry Resnet18.Sig (Resnet18.add_vm_module ctx vm_module) (Ok tt);
       @mkEntry Resnet18.Sig (Resnet18.ctx_modules_module ctx) (Ok m)] /\
    Resnet18.IREEInvoker.__init__ 14%nat = Resnet18.IREEInvoker.__init__ m.
Proof.
  apply (@compile_and_load_wires_compiled_module unit Lab.libs 8%nat tt
           (Resnet18.IREEInvoker.__init__ 14%nat)).
  reflexivity.
Defined.

